(** * CredScan crawler (src/crawler.py): a shallow embedding in Rocq

    The development follows the layout of the Python module:
    - [PyStr]: the [str] methods the crawler calls ([lower], [find],
      [strip], [replace], slicing);
    - [search_in_html]: the snippet extractor (lines 64-81);
    - [dedup]: the link list comprehension and the [seen]/[uniq_links] loop
      (lines 102-113);
    - [crawl_file]: the crawl driver (lines 98-181), written in a small
      state-and-exception monad over a trace of the calls it makes to its
      collaborators (file system, Selenium driver, random source, clock).
    - [Writer]: the report writer [write_result_html] (lines 83-95), as the
      sequence of texts it writes;
    - [Browser]: the browser set-up [make_firefox_driver] (lines 28-61).

    A Python [str] is modelled as the list of its code points, so indices
    and lengths are those of Python. [str.isspace] and [str.strip] are
    modelled on every code point. [str.lower] is modelled on the code
    points below U+0180 (Basic Latin, Latin-1 Supplement, Latin
    Extended-A): there it lowers one code point to one, except U+0130,
    which it lowers to the two code points U+0069 U+0307, so that lowering
    can change lengths and indices. Above U+017F the model leaves a code
    point as it is, where Python lowers further letters by table and the
    capital sigma U+03A3 by its context; the statements that need lowering
    to keep positions exclude U+0130 and U+03A3 by hypothesis, and the
    other statements over every text use of [lower] only that it is
    idempotent and lowers the empty text, and only it, to the empty
    text. *)

From Stdlib Require Import Ascii QArith Qround.
From stdpp Require Import gmap strings list pretty.

Local Open Scope Z_scope.

(* ===================================================================== *)
(** * The [str] methods used by the crawler *)
(* ===================================================================== *)

(** A [str]: its code points, in order. *)
Abbreviation str := (list N).

(** The [str] of an ASCII literal of the source. *)
Definition lit (s : string) : str :=
  N_of_ascii <$> String.list_ascii_of_string s.

Module PyStr.

(** [str.isspace] on one code point: the characters [str.strip()]
    removes. *)
Definition isspace (c : N) : bool :=
  ((9 <=? c) && (c <=? 13) || (28 <=? c) && (c <=? 32)
   || (c =? 133) || (c =? 160) || (c =? 5760)
   || (8192 <=? c) && (c <=? 8202)
   || (c =? 8232) || (c =? 8233) || (c =? 8239) || (c =? 8287)
   || (c =? 12288))%N.

(** The lower-case form of a code point other than U+0130, below U+0180:
    A-Z and the Latin-1 capitals (U+00C0..U+00DE except the multiplication
    sign U+00D7) move up by 32; the capitals of Latin Extended-A stand
    before their small letters, at the even code points of U+0100..U+012F,
    U+0132..U+0137 and U+014A..U+0177 and at the odd ones of
    U+0139..U+0148 and U+0179..U+017E; U+0178 has its small letter at
    U+00FF. *)
Definition lower1 (c : N) : N :=
  (if 384 <=? c then c
   else if (65 <=? c) && (c <=? 90)
           || (192 <=? c) && (c <=? 222) && negb (c =? 215)
   then c + 32
   else if ((256 <=? c) && (c <=? 303) || (306 <=? c) && (c <=? 311)
            || (330 <=? c) && (c <=? 375)) && N.even c
   then c + 1
   else if ((313 <=? c) && (c <=? 328) || (377 <=? c) && (c <=? 382))
           && N.odd c
   then c + 1
   else if c =? 376 then 255
   else c)%N.

(** [str.lower] on one code point: U+0130 (capital I with dot above) gives
    a small i followed by the combining dot above. *)
Definition lower_cp (c : N) : str :=
  if (c =? 304)%N then [105%N; 775%N] else [lower1 c].

(** [s.lower()] *)
Definition lower (s : str) : str := s ≫= lower_cp.

(** [len(s)] *)
Definition len (s : str) : Z := Z.of_nat (length s).

(** [s.startswith(k)] *)
Fixpoint startswith (k s : str) : bool :=
  match k, s with
  | [], _ => true
  | a :: k', b :: s' => (a =? b)%N && startswith k' s'
  | _ :: _, [] => false
  end.

(** [s.find(k)]: lowest index at which [k] occurs in [s], or -1. *)
Fixpoint find (s k : str) : Z :=
  if startswith k s then 0
  else match s with
       | [] => -1
       | _ :: s' => let r := find s' k in if r =? -1 then -1 else r + 1
       end.

(** [s[start:stop]] for non-negative indices: both bounds are clamped to
    the length and an empty range gives the empty string. *)
Definition slice (s : str) (start stop : Z) : str :=
  take (Z.to_nat (stop - start)) (drop (Z.to_nat start) s).

Fixpoint lstrip (s : str) : str :=
  match s with
  | [] => []
  | c :: s' => if isspace c then lstrip s' else s
  end.

Fixpoint rstrip (s : str) : str :=
  match s with
  | [] => []
  | c :: s' =>
      match rstrip s' with
      | [] => if isspace c then [] else [c]
      | r => c :: r
      end
  end.

(** [s.strip()] *)
Definition strip (s : str) : str := rstrip (lstrip s).

(** [s.replace(a, b)] for one-character [a] and [b]. *)
Fixpoint replace (a b : N) (s : str) : str :=
  match s with
  | [] => []
  | c :: s' => (if (c =? a)%N then b else c) :: replace a b s'
  end.

(** Truth value of a [str]: the empty string is false. *)
Definition truthy (s : str) : bool :=
  match s with [] => false | _ => true end.

End PyStr.

(* ===================================================================== *)
(** * Exceptions, collaborators and the trace of a run *)
(* ===================================================================== *)

(** The exception classes the handlers of [crawl_file] tell apart.
    [TimeoutException] is a subclass of [WebDriverException]; [Exception]
    stands for every other subclass of [Exception] ([OSError],
    [ValueError], ...); [BaseException] for the classes outside
    [Exception] ([KeyboardInterrupt], [SystemExit]). *)
Inductive exc :=
  | TimeoutException (msg : string)
  | WebDriverException (msg : string)
  | Exception (msg : string)
  | BaseException (msg : string).

Definition is_TimeoutException (e : exc) : bool :=
  match e with TimeoutException _ => true | _ => false end.

Definition is_WebDriverException (e : exc) : bool :=
  match e with TimeoutException _ | WebDriverException _ => true | _ => false end.

Definition is_Exception (e : exc) : bool :=
  match e with BaseException _ => false | _ => true end.

(** The dict built at lines 151-156. *)
Record entry := {
  url : str;
  title : str;
  snippet : str;
  timestamp : str
}.

(** What [print] is called with (the f-strings, by line). *)
Inductive message :=
  | MsgNoLinks                                  (* 104, stderr *)
  | MsgTotalUnique (n : nat)                    (* 115 *)
  | MsgStartFailed                              (* 122, stderr *)
  | MsgStartError (e : exc)                     (* 123, stderr: str(e) *)
  | MsgCapReached                               (* 132 *)
  | MsgCrawling (count : Z) (link : str)     (* 135 *)
  | MsgMatch (link : str)                    (* 158 *)
  | MsgNoMatch                                  (* 160 *)
  | MsgTimeout (link : str)                  (* 163 *)
  | MsgWebDriverError (link : str) (e : exc) (* 165 *)
  | MsgError (link : str) (e : exc)          (* 167 *)
  | MsgSleeping (delay : Q)                     (* 171 *)
  | MsgWrote (n : nat) (outpath : str)       (* 181 *)
  | MsgNoKeywordWarning                         (* 198, stderr *)
  | MsgStarting (input keyword : str) (max : Z). (* 199 *)

(** The calls a run makes to the outside, in the order it makes them. *)
Inductive event :=
  | EvOpen (input_path : str)          (* open(...).read().splitlines() *)
  | EvStart (headless : bool)             (* make_firefox_driver(headless) *)
  | EvGet (link : str)                 (* driver.get(link) *)
  | EvRenderWait                          (* time.sleep(1), line 139 *)
  | EvPageSource                          (* driver.page_source *)
  | EvTitle                               (* driver.title *)
  | EvDelay (delay : Q)                   (* time.sleep(delay), line 172 *)
  | EvQuit                                (* driver.quit() *)
  | EvWrite (outpath : str) (es : list entry) (* write_result_html *)
  | EvPrint (m : message).

(** The WebDriver object returned by [make_firefox_driver]. *)
Inductive Driver := Firefox.

(** The collaborators of a run: what each outside call answers.  The
    driver's answers and the random and clock readings are indexed by the
    value of [count] at the attempt. A call either returns or raises.
    Durations are the finite floats of Python, taken as the rationals they
    denote. [os_sleep] is the answer of the platform's wait behind
    [time.sleep] to a duration that [time.sleep] has accepted: the wait is
    made, or refused before any waiting ([OSError]). *)
Record World := {
  read_lines : str -> exc + list str;
  make_firefox_driver : bool -> exc + Driver;
  driver_get : Z -> str -> option exc;
  driver_page_source : Z -> str -> exc + option str;
  driver_title : Z -> str -> exc + str;
  driver_quit : option exc;
  get_text : str -> option str;      (* BeautifulSoup(s, "lxml").get_text() *)
  random_uniform : Z -> Q -> Q -> Q;
  utcnow_isoformat : Z -> str;
  time_time : Z;
  os_sleep : Z -> Q -> option exc;
  open_write : str -> option exc
}.

(* ===================================================================== *)
(** * Snippet extractor (lines 64-81) *)
(* ===================================================================== *)

Definition search_in_html (w : World) (html : str) (keyword : option str)
  : option str :=
  match keyword with
  | None => None
  | Some kw =>
      if negb (PyStr.truthy kw) then None
      else
        let lowered := PyStr.lower html in
        let k := PyStr.lower kw in
        let idx := PyStr.find lowered k in
        if idx =? -1 then None
        else
          let start := Z.max 0 (idx - 120) in
          let end_ := Z.min (PyStr.len html) (idx + 120) in
          let snippet := PyStr.slice html start end_ in
          let s := match get_text w snippet with
                   | Some t => t
                   | None => snippet
                   end in
          Some (lit "..." ++ PyStr.replace 10%N 32%N (PyStr.strip s) ++ lit "...")
  end.

(* ===================================================================== *)
(** * Link list and deduplication (lines 102-113) *)
(* ===================================================================== *)

(** [[ln.strip() for ln in raw if ln.strip()]] *)
Definition stripped_links (raw : list str) : list str :=
  PyStr.strip <$> filter (λ ln, PyStr.strip ln ≠ []) raw.

(** The [for l in links] loop over [seen] and [uniq_links]. *)
Fixpoint dedup_loop (links : list str) (seen : gset str)
    (uniq_links : list str) : list str :=
  match links with
  | [] => uniq_links
  | l :: rest =>
      if decide (l ∈ seen) then dedup_loop rest seen uniq_links
      else dedup_loop rest ({[l]} ∪ seen) (uniq_links ++ [l])
  end.

Definition dedup (links : list str) : list str := dedup_loop links ∅ [].

(** The deduplicated links of an input: both steps. *)
Definition uniq_links_of (raw : list str) : list str :=
  dedup (stripped_links raw).

(* ===================================================================== *)
(** * A state-and-exception monad for the driver code *)
(* ===================================================================== *)

(** The mutable locals of [crawl_file] and the trace of outside calls. *)
Record state := {
  trace : list event;
  count : Z;
  entries : list entry
}.

Definition init : state := {| trace := []; count := 0; entries := [] |}.

(** A statement either completes with a value or raises. *)
Inductive res (A : Type) :=
  | Ok (a : A)
  | Exc (e : exc).
Arguments Ok {A} a.
Arguments Exc {A} e.

Definition M (A : Type) : Type := state -> res A * state.

Definition ret {A} (a : A) : M A := fun s => (Ok a, s).

Definition bind {A B} (m : M A) (f : A -> M B) : M B :=
  fun s => match m s with
           | (Ok a, s') => f a s'
           | (Exc e, s') => (Exc e, s')
           end.

Declare Scope py_scope.
Delimit Scope py_scope with py.
Notation "x <- m ;; k" := (bind m (fun x => k))
  (at level 20, m at level 99, k at level 200, only parsing) : py_scope.
Notation "m ;; k" := (bind m (fun _ => k))
  (at level 100, k at level 200, only parsing, right associativity) : py_scope.
Local Open Scope py_scope.

Definition raise {A} (e : exc) : M A := fun s => (Exc e, s).

(** Record one outside call. *)
Definition emit (ev : event) : M unit :=
  fun s => (Ok tt, {| trace := trace s ++ [ev]; count := count s;
                      entries := entries s |}).

Definition print (m : message) : M unit := emit (EvPrint m).

(** The answer of a call that returns nothing, or raises. *)
Definition call (o : option exc) : M unit :=
  match o with
  | None => ret tt
  | Some e => raise e
  end.

(** The answer of a call that returns a value, or raises. *)
Definition call_val {A} (o : exc + A) : M A :=
  match o with
  | inr a => ret a
  | inl e => raise e
  end.

Definition get_count : M Z := fun s => (Ok (count s), s).

Definition set_count (c : Z) : M unit :=
  fun s => (Ok tt, {| trace := trace s; count := c; entries := entries s |}).

Definition set_entries (es : list entry) : M unit :=
  fun s => (Ok tt, {| trace := trace s; count := count s; entries := es |}).

Definition get_entries : M (list entry) := fun s => (Ok (entries s), s).

(** [entries.append(e)] *)
Definition append_entry (e : entry) : M unit :=
  fun s => (Ok tt, {| trace := trace s; count := count s;
                      entries := entries s ++ [e] |}).

(** [try: m  except ...: h]: the handler [h] answers [None] for an
    exception no [except] clause matches, which then keeps propagating. *)
Definition try_except {A} (m : M A) (h : exc -> option (M A)) : M A :=
  fun s => match m s with
           | (Ok a, s') => (Ok a, s')
           | (Exc e, s') =>
               match h e with
               | Some k => k s'
               | None => (Exc e, s')
               end
           end.

(** [try: m  finally: fin]: [fin] runs on every exit of [m]; an exception
    of [fin] replaces the outcome of [m]. *)
Definition try_finally {A} (m : M A) (fin : M unit) : M A :=
  fun s => match m s with
           | (r, s') =>
               match fin s' with
               | (Ok _, s'') => (r, s'')
               | (Exc e, s'') => (Exc e, s'')
               end
           end.

(** How one pass through a loop body ends. *)
Inductive ctl := Continue | Break.

(** [for x in xs: body], where [body] may [break]. *)
Fixpoint for_each {X} (xs : list X) (body : X -> M ctl) : M unit :=
  match xs with
  | [] => ret tt
  | x :: rest =>
      c <- body x ;;
      match c with
      | Continue => for_each rest body
      | Break => ret tt
      end
  end.

(* ===================================================================== *)
(** * The crawl driver (lines 98-181) *)
(* ===================================================================== *)

(** The duration of a sleep in nanoseconds, rounded away from zero, as
    [time.sleep] takes a float. *)
Definition sleep_ns (delay : Q) : Z :=
  let ns := (delay * 1000000000)%Q in
  if Qle_bool 0 ns then Qceiling ns else Qfloor ns.

(** What [time.sleep(delay)] raises at attempt [c], if anything, before it
    waits: [OverflowError] for a duration whose nanoseconds do not fit a
    signed 64-bit integer, [ValueError] for a negative one (at the very
    bound the class of the two that is raised depends on the CPython
    version), and otherwise what the platform's wait answers. *)
Definition sleep_answer (w : World) (c : Z) (delay : Q) : option exc :=
  let ns := sleep_ns delay in
  if negb ((- 2 ^ 63 <=? ns) && (ns <? 2 ^ 63))
  then Some (Exception "timestamp too large to convert to C _PyTime_t")
  else if ns <? 0 then Some (Exception "sleep length must be non-negative")
  else os_sleep w c delay.

Section Crawl.

Variable w : World.
Variable keyword : option str.
Variable max_links_per_site : Z.
Variables delay_min delay_max : Q.

(** Truth value of [keyword]: [None] and the empty string are false. *)
Definition keyword_truthy (k : option str) : bool :=
  match k with
  | Some kw => PyStr.truthy kw
  | None => false
  end.

(** [time.sleep(delay)] at line 172, at attempt [c]: the answer of
    [sleep_answer], raised before any waiting, or the wait. *)
Definition time_sleep (c : Z) (delay : Q) : M unit :=
  match sleep_answer w c delay with
  | Some e => raise e
  | None => emit (EvDelay delay)
  end.

(** Lines 138-160: the body of the inner [try]. *)
Definition attempt (c : Z) (link : str) : M unit :=
  emit (EvGet link) ;;
  call (driver_get w c link) ;;
  emit EvRenderWait ;;
  emit EvPageSource ;;
  src <- call_val (driver_page_source w c link) ;;
  let html := default [] src in
  title <- try_except
             (emit EvTitle ;; call_val (driver_title w c link))
             (fun e => if is_Exception e then Some (ret []) else None) ;;
  let snippet := if keyword_truthy keyword
                 then search_in_html w html keyword else None in
  match snippet with
  | Some sn =>
      if PyStr.truthy sn then
        append_entry {| url := link; title := title; snippet := sn;
                        timestamp := utcnow_isoformat w c ++ lit "Z" |} ;;
        print (MsgMatch link)
      else print MsgNoMatch
  | None => print MsgNoMatch
  end.

(** Lines 162-167: the three [except] clauses, in order. *)
Definition attempt_handlers (link : str) (e : exc) : option (M unit) :=
  if is_TimeoutException e then Some (print (MsgTimeout link))
  else if is_WebDriverException e then Some (print (MsgWebDriverError link e))
  else if is_Exception e then Some (print (MsgError link e))
  else None.

(** Lines 129-172: one pass of [for link in uniq_links]. *)
Definition loop_body (link : str) : M ctl :=
  c0 <- get_count ;;
  set_count (c0 + 1) ;;
  c <- get_count ;;
  if c >? max_links_per_site then
    print MsgCapReached ;; ret Break
  else
    print (MsgCrawling c link) ;;
    try_except (attempt c link) (attempt_handlers link) ;;
    let delay := random_uniform w c delay_min delay_max in
    print (MsgSleeping delay) ;;
    time_sleep c delay ;;
    ret Continue.

(** Lines 127-128: the [for] loop. *)
Definition crawl_loop (uniq_links : list str) : M unit :=
  for_each uniq_links loop_body.

(** Lines 174-176: the [finally] block. *)
Definition release (driver : option Driver) : M unit :=
  match driver with
  | Some _ => emit EvQuit ;; call (driver_quit w)
  | None => ret tt
  end.

(** [f"results_{int(time.time())}.html"] *)
Definition results_name (t : Z) : str :=
  lit "results_" ++ lit (pretty t) ++ lit ".html".

(** Lines 83-95, as far as the driver sees them: the file is opened and
    the entries are written in order, or [open] raises. *)
Definition write_result_html (es : list entry) (outpath : str) : M unit :=
  emit (EvWrite outpath es) ;;
  call (open_write w outpath).

Definition crawl_file (input_path : str) (headless : bool) : M unit :=
  emit (EvOpen input_path) ;;
  raw <- call_val (read_lines w input_path) ;;
  let links := stripped_links raw in
  match links with
  | [] => print MsgNoLinks                          (* return *)
  | _ :: _ =>
      let uniq_links := dedup links in
      print (MsgTotalUnique (length uniq_links)) ;;
      set_entries [] ;;
      driver <- try_except
                  (emit (EvStart headless) ;;
                   d <- call_val (make_firefox_driver w headless) ;;
                   ret (Some d))
                  (fun e => if is_WebDriverException e
                            then Some (print MsgStartFailed ;;
                                       print (MsgStartError e) ;;
                                       ret None)
                            else None) ;;
      match driver with
      | None => ret tt                              (* return *)
      | Some _ =>
          set_count 0 ;;
          try_finally (crawl_loop uniq_links) (release driver) ;;
          let timestamped := results_name (time_time w) in
          es <- get_entries ;;
          write_result_html es timestamped ;;
          print (MsgWrote (length es) timestamped)
      end
  end.

End Crawl.

(** The parsed command line (lines 184-192). *)
Record Args := {
  arg_input : str;
  arg_keyword : str;
  arg_max : Z;
  arg_headless : bool;
  arg_delay_min : Q;
  arg_delay_max : Q
}.

(** Lines 194-200: the script body after [parse_args]. *)
Definition main (w : World) (args : Args) : M unit :=
  (if negb (PyStr.truthy (arg_keyword args))
   then print MsgNoKeywordWarning else ret tt) ;;
  print (MsgStarting (arg_input args) (arg_keyword args) (arg_max args)) ;;
  crawl_file w (Some (arg_keyword args)) (arg_max args)
    (arg_delay_min args) (arg_delay_max args)
    (arg_input args) (arg_headless args).

(** The process ends with status 0 when the script body returns, and with
    a non-zero status and a traceback when an exception leaves it. *)
Definition exit_ok {A} (r : res A) : bool :=
  match r with Ok _ => true | Exc _ => false end.

(** A run from the initial state. *)
Definition run {A} (m : M A) : res A * state := m init.

(* ===================================================================== *)
(** * Observations on a trace *)
(* ===================================================================== *)

(** The links fetched, in the order of the [driver.get] calls. *)
Definition attempted (tr : list event) : list str :=
  omap (fun ev => match ev with EvGet l => Some l | _ => None end) tr.

(** The fetches and the inter-request sleeps, in order. *)
Definition pace (tr : list event) : list event :=
  List.filter
    (fun ev => match ev with EvGet _ | EvDelay _ => true | _ => false end) tr.

(** The number of [driver.quit()] calls. *)
Definition quits (tr : list event) : nat :=
  length (List.filter (fun ev => match ev with EvQuit => true | _ => false end) tr).

(** The number of [make_firefox_driver] calls that returned a driver. *)
Definition acquired (w : World) (tr : list event) : nat :=
  length (List.filter
            (fun ev => match ev with
                       | EvStart h =>
                           match make_firefox_driver w h with
                           | inr _ => true
                           | inl _ => false
                           end
                       | _ => false
                       end) tr).

(** The number of [make_firefox_driver] calls. *)
Definition starts (tr : list event) : nat :=
  length (List.filter
            (fun ev => match ev with EvStart _ => true | _ => false end) tr).

(** The calls of [write_result_html]: the path and the entries passed. *)
Definition reports (tr : list event) : list (str * list entry) :=
  omap (fun ev => match ev with EvWrite p es => Some (p, es) | _ => None end) tr.

(** The events a pass of the loop can add to the trace. *)
Definition loop_event (ev : event) : bool :=
  match ev with
  | EvGet _ | EvRenderWait | EvPageSource | EvTitle | EvDelay _ | EvPrint _ => true
  | EvOpen _ | EvStart _ | EvQuit | EvWrite _ _ => false
  end.

(** The locals as lines 117 and 126 leave them, after the calls [tr]. *)
Definition loop_start (tr : list event) : state :=
  {| trace := tr; count := 0; entries := [] |}.

(** What the loop prints for an exception caught at lines 162-167. *)
Definition failure_message (link : str) (e : exc) : message :=
  if is_TimeoutException e then MsgTimeout link
  else if is_WebDriverException e then MsgWebDriverError link e
  else MsgError link e.

(** The fetches and sleeps of a loop that attempts [ls] in turn, starting
    with [count = c]: every fetch is followed by one sleep, of the duration
    [random.uniform(delay_min, delay_max)] answered at that attempt. *)
Fixpoint paced (w : World) (dmin dmax : Q) (c : Z) (ls : list str)
  : list event :=
  match ls with
  | [] => []
  | l :: rest =>
      EvGet l :: EvDelay (random_uniform w (c + 1) dmin dmax)
        :: paced w dmin dmax (c + 1) rest
  end.

(** What [main] prints before it calls [crawl_file] (lines 197-199). *)
Definition main_prelude (args : Args) : list event :=
  (if negb (PyStr.truthy (arg_keyword args))
   then [EvPrint MsgNoKeywordWarning] else []) ++
  [EvPrint (MsgStarting (arg_input args) (arg_keyword args) (arg_max args))].

(* ===================================================================== *)
(** * Assumptions on the collaborators *)
(* ===================================================================== *)

(** [random.uniform(a, b)] answers a number between its arguments. *)
Definition uniform_contract (w : World) : Prop :=
  forall c a b, (a <= b)%Q ->
    (a <= random_uniform w c a b)%Q /\ (random_uniform w c a b <= b)%Q.

(** The fetch of [link] at attempt [c] raises [e]: from [driver.get] or
    from [driver.page_source]. *)
Definition fetch_raises (w : World) (c : Z) (link : str) (e : exc) : Prop :=
  driver_get w c link = Some e \/
  (driver_get w c link = None /\ driver_page_source w c link = inl e).

(** Every exception of the driver during a fetch is an [Exception]: a
    timeout, a driver error or another per-link error. *)
Definition recoverable_world (w : World) : Prop :=
  forall c link e,
    (driver_get w c link = Some e \/ driver_page_source w c link = inl e
     \/ driver_title w c link = inl e) -> is_Exception e = true.

(** [time.sleep] takes every duration from 0 to [dmax]: [dmax] is below
    2^63 nanoseconds and the platform's wait refuses no such duration. *)
Definition sleep_accepts (w : World) (dmax : Q) : Prop :=
  sleep_ns dmax < 2 ^ 63 /\
  forall c d, (0 <= d)%Q -> (d <= dmax)%Q -> os_sleep w c d = None.

(** The exception [x] leaves the pass for [link] at attempt [c]: the driver
    raised it during the fetch and it is not an [Exception], or
    [time.sleep] raised it at line 172. *)
Definition escapes_pass (w : World) (dmin dmax : Q) (c : Z) (link : str)
    (x : exc) : Prop :=
  (is_Exception x = false /\
   (driver_get w c link = Some x \/ driver_page_source w c link = inl x
    \/ driver_title w c link = inl x)) \/
  sleep_answer w c (random_uniform w c dmin dmax) = Some x.

(* ===================================================================== *)
(** * The contracts in the words of the specification *)
(* ===================================================================== *)

(** Trim every line, then discard the lines that became empty. *)
Definition trimmed_nonempty (raw : list str) : list str :=
  filter (fun s => s ≠ []) (PyStr.strip <$> raw).

(** Keep the first occurrence of each value and drop the later ones. *)
Fixpoint first_occurrences (l : list str) : list str :=
  match l with
  | [] => []
  | x :: rest => x :: filter (fun y => y ≠ x) (first_occurrences rest)
  end.

(** [k] occurs in [s] at index [i]. *)
Definition occurs_at (k s : str) (i : nat) : Prop :=
  exists pre post, s = pre ++ k ++ post /\ length pre = i.

(** [i] is the index of the first occurrence of [k] in [s]. *)
Definition first_occurrence (k s : str) (i : nat) : Prop :=
  occurs_at k s i /\ forall j, occurs_at k s j -> (i <= j)%nat.

Definition starts_with (p s : str) : Prop := exists t, s = p ++ t.

Definition ends_with (p s : str) : Prop := exists t, s = t ++ p.

(* ===================================================================== *)
(** * Concrete collaborators for examples *)
(* ===================================================================== *)

(** A tag remover standing for [get_text]: drops what lies between
    [<] and [>]. *)
Fixpoint strip_tags (inside : bool) (s : str) : str :=
  match s with
  | [] => []
  | c :: s' =>
      if inside then strip_tags (negb (c =? 62)%N) s'
      else if (c =? 60)%N then strip_tags true s'
      else c :: strip_tags false s'
  end.

(** A world in which every call succeeds: the input file holds [lines],
    every link serves [pages link], and every delay is [delay_min]. *)
Definition page_world (lines : list str) (pages : str -> str) : World := {|
  read_lines := fun _ => inr lines;
  make_firefox_driver := fun _ => inr Firefox;
  driver_get := fun _ _ => None;
  driver_page_source := fun _ l => inr (Some (pages l));
  driver_title := fun _ l => inr (lit "title of " ++ l);
  driver_quit := None;
  get_text := fun s => Some (strip_tags false s);
  random_uniform := fun _ a _ => a;
  utcnow_isoformat := fun c => lit "2024-01-01T00:00:0" ++ lit (pretty c);
  time_time := 1700000000;
  os_sleep := fun _ _ => None;
  open_write := fun _ => None
|}.

Definition hello_page (link : str) : str := lit "<p>hello WORLD test page</p>".

(** [page_world] with the answers of some calls replaced. *)
Definition with_read (w : World) (f : str -> exc + list str) : World := {|
  read_lines := f;
  make_firefox_driver := make_firefox_driver w;
  driver_get := driver_get w;
  driver_page_source := driver_page_source w;
  driver_title := driver_title w;
  driver_quit := driver_quit w;
  get_text := get_text w;
  random_uniform := random_uniform w;
  utcnow_isoformat := utcnow_isoformat w;
  time_time := time_time w;
  os_sleep := os_sleep w;
  open_write := open_write w
|}.

Definition with_start (w : World) (f : bool -> exc + Driver) : World := {|
  read_lines := read_lines w;
  make_firefox_driver := f;
  driver_get := driver_get w;
  driver_page_source := driver_page_source w;
  driver_title := driver_title w;
  driver_quit := driver_quit w;
  get_text := get_text w;
  random_uniform := random_uniform w;
  utcnow_isoformat := utcnow_isoformat w;
  time_time := time_time w;
  os_sleep := os_sleep w;
  open_write := open_write w
|}.

Definition with_get (w : World) (f : Z -> str -> option exc) : World := {|
  read_lines := read_lines w;
  make_firefox_driver := make_firefox_driver w;
  driver_get := f;
  driver_page_source := driver_page_source w;
  driver_title := driver_title w;
  driver_quit := driver_quit w;
  get_text := get_text w;
  random_uniform := random_uniform w;
  utcnow_isoformat := utcnow_isoformat w;
  time_time := time_time w;
  os_sleep := os_sleep w;
  open_write := open_write w
|}.

(** Three links, all serving the page with the keyword. *)
Definition abc_world : World := page_world [lit "a"; lit "b"; lit "c"] hello_page.

(** The same, but the second fetch times out. *)
Definition timeout_world : World :=
  with_get abc_world
    (fun c _ => if c =? 2 then Some (TimeoutException "page load") else None).

(** The same, but the user interrupts the second fetch. *)
Definition interrupt_world : World :=
  with_get abc_world
    (fun c _ => if c =? 2 then Some (BaseException "KeyboardInterrupt") else None).

(** Firefox cannot be started. *)
Definition nodriver_world : World :=
  with_start abc_world (fun _ => inl (WebDriverException "geckodriver not found")).

(** The input file does not exist. *)
Definition missing_world : World :=
  with_read abc_world (fun _ => inl (Exception "FileNotFoundError")).

(** The input file holds blank lines only. *)
Definition blank_world : World :=
  with_read abc_world (fun _ => inr [[]; lit "   "; [9%N]]).

Definition default_args (kw : str) : Args := {|
  arg_input := lit "input_links.txt";
  arg_keyword := kw;
  arg_max := 50;
  arg_headless := true;
  arg_delay_min := 5;
  arg_delay_max := 12
|}.

(** The same as [abc_world], but the first fetch times out. *)
Definition first_timeout_world : World :=
  with_get abc_world
    (fun c _ => if c =? 1 then Some (TimeoutException "page load") else None).

(** A body of two hundred capital I with dot above (U+0130), then the word
    [key]. *)
Definition dotted_page : str := replicate 200 304%N ++ lit "key".

(* ===================================================================== *)
(** * Further observations and contracts *)
(* ===================================================================== *)

(** A text that does not begin with whitespace. *)
Definition head_nonspace (s : str) : Prop :=
  match s with
  | [] => True
  | c :: _ => PyStr.isspace c = false
  end.

(** The calls to the driver and to [time.sleep]: the trace without the file
    accesses and the prints. *)
Definition driver_calls (tr : list event) : list event :=
  List.filter
    (fun ev => match ev with
               | EvStart _ | EvGet _ | EvRenderWait | EvPageSource | EvTitle
               | EvDelay _ | EvQuit => true
               | EvOpen _ | EvWrite _ _ | EvPrint _ => false
               end) tr.

(** The title lines 144-147 end with at attempt [c]: the title of the
    driver, the empty title when [driver.title] raises an [Exception], and
    none when it raises something else. *)
Definition page_title (w : World) (c : Z) (link : str) : option str :=
  match driver_title w c link with
  | inr t => Some t
  | inl e => if is_Exception e then Some [] else None
  end.

(** The entry a link deserves at attempt [c]: the page was fetched, its
    source was read, a title is at hand and the extractor finds the keyword
    in the source. *)
Definition match_of (w : World) (kw : option str) (c : Z) (link : str)
  : option entry :=
  match driver_get w c link, driver_page_source w c link with
  | None, inr src =>
      match page_title w c link, search_in_html w (default [] src) kw with
      | Some t, Some sn =>
          Some {| url := link; title := t; snippet := sn;
                  timestamp := utcnow_isoformat w c ++ lit "Z" |}
      | _, _ => None
      end
  | _, _ => None
  end.

(** The entries the links [ls] deserve, attempted in turn after [count = c]. *)
Fixpoint matches (w : World) (kw : option str) (c : Z) (ls : list str)
  : list entry :=
  match ls with
  | [] => []
  | l :: rest =>
      match match_of w kw (c + 1) l with
      | Some e => e :: matches w kw (c + 1) rest
      | None => matches w kw (c + 1) rest
      end
  end.

(** [x] occurs in [doc] as a run of consecutive code points. *)
Definition occurs_in (x doc : list N) : Prop :=
  exists pre post, doc = pre ++ x ++ post.

(* ===================================================================== *)
(** * The report writer (lines 83-95) *)
(* ===================================================================== *)

Module Writer.

(** A written text: the [str] passed to [f.write]. *)
Abbreviation text := (list N).

Definition nl : text := [10%N].

(** The dash U+2014 in the heading of line 87. *)
Definition em_dash : text := [8212%N].

(** An entry as [write_result_html] takes it: a dict from keys to [str].
    The keys are the four ASCII names of lines 90-93. *)
Abbreviation dict := (gmap string str).

(** The dict literal of lines 151-156. *)
Definition entry_dict (e : entry) : dict :=
  <["url" := url e]> (<["title" := title e]> (<["snippet" := snippet e]>
    (<["timestamp" := timestamp e]> ∅))).

Definition line86 : text :=
  lit "<!doctype html>" ++ nl ++
  lit "<html><head><meta charset='utf-8'><title>Crawl Results</title></head><body>"
  ++ nl.

Definition line87 (now : str) : text :=
  lit "<h1>Crawl Results " ++ em_dash ++ lit " " ++ now ++ lit " UTC</h1>" ++ nl.

Definition line89 : text :=
  lit "<div style='margin-bottom:1.2em;padding:8px;border:1px solid #ddd;'>" ++ nl.

Definition line90 (u : str) : text :=
  lit "<a href='" ++ u ++ lit "' target='_blank'>" ++ u ++ lit "</a><br/>" ++ nl.

Definition line91 (t : str) : text :=
  lit "<strong>Title:</strong> " ++ t ++ lit "<br/>" ++ nl.

Definition line92 (s : str) : text :=
  lit "<strong>Found:</strong> " ++ s ++ lit "<br/>" ++ nl.

Definition line93 (t : str) : text :=
  lit "<strong>When:</strong> " ++ t ++ lit "<br/>" ++ nl.

Definition line94 : text := lit "</div>" ++ nl.

Definition line95 : text := lit "</body></html>" ++ nl.

(** Lines 89-94 for one entry: the [f.write] calls made, and the [KeyError]
    of [e['url']] when the key is missing. [e.get] answers its default for
    a missing key; [e.get('timestamp')] answers [None], printed as such. *)
Definition write_entry (e : dict) : list text * option exc :=
  match e !! "url" with
  | None => ([line89], Some (Exception "KeyError"))
  | Some u =>
      ([line89; line90 u;
        line91 (default (lit "(no title)") (e !! "title"));
        line92 (default [] (e !! "snippet"));
        line93 (default (lit "None") (e !! "timestamp"));
        line94], None)
  end.

(** Lines 88-94: the loop over the entries stops at the first exception. *)
Fixpoint write_entries (es : list dict) : list text * option exc :=
  match es with
  | [] => ([], None)
  | e :: rest =>
      match write_entry e with
      | (ws, Some x) => (ws, Some x)
      | (ws, None) =>
          let '(ws', r) := write_entries rest in (ws ++ ws', r)
      end
  end.

(** Lines 83-95: the [f.write] calls made on the file, in order, and the
    exception that leaves the function, if any. [opened] is the answer of
    [open]; [now] is [datetime.utcnow().isoformat()]. *)
Definition write_result_html (opened : option exc) (now : str)
    (es : list dict) : list text * option exc :=
  match opened with
  | Some x => ([], Some x)
  | None =>
      match write_entries es with
      | (ws, Some x) => ([line86; line87 now] ++ ws, Some x)
      | (ws, None) => ([line86; line87 now] ++ ws ++ [line95], None)
      end
  end.

(** The six writes for an entry that has its four keys. *)
Definition block (e : entry) : list text :=
  [line89; line90 (url e); line91 (title e); line92 (snippet e);
   line93 (timestamp e); line94].

End Writer.

(* ===================================================================== *)
(** * The browser set-up (lines 28-61) *)
(* ===================================================================== *)

Module Browser.

(** Lines 29-32: the configuration defaults. *)
Definition TOR_SOCKS_HOST : str := lit "127.0.0.1".

Definition TOR_SOCKS_PORT : Z := 9050.

Definition GECKODRIVER_PATH : str := lit "/usr/local/bin/geckodriver".

Definition FIREFOX_BINARY : option str := None.

(** A preference value: an int, a str or a bool. *)
Inductive pref :=
  | PInt (n : Z)
  | PStr (s : str)
  | PBool (b : bool).

(** The [Options] object handed to [webdriver.Firefox]: the arguments
    added, the binary location (unset unless this code assigns it) and the
    preferences of its profile, by name. *)
Record Options := {
  arguments : list str;
  binary_location : option str;
  profile : gmap string pref
}.

(** What Selenium answers: a new [webdriver.FirefoxProfile()] holds
    Selenium's own default preferences; [webdriver.Firefox(service,
    options)] returns a driver or raises;
    [driver.set_page_load_timeout(t)] returns or raises. The constructors
    and [update_preferences] are taken to return. *)
Record Selenium := {
  default_preferences : gmap string pref;
  firefox : str -> Options -> exc + Driver;
  set_page_load_timeout : Z -> option exc
}.

(** The calls made to Selenium, in order. *)
Inductive request :=
  | CallFirefox (service : str) (o : Options)
  | CallTimeout (seconds : Z).

(** [profile.set_preference(key, value)]: the preference is set, over a
    default of the same name if there is one. *)
Definition set_preference (key : string) (v : pref) (p : gmap string pref)
  : gmap string pref := <[key := v]> p.

(** Lines 37-54: the options built before the browser is started. *)
Definition make_options (sel : Selenium) (headless : bool) (tor_host : str)
    (tor_port : Z) : Options :=
  let args := if headless then [lit "--headless"] else [] in
  let binary := match FIREFOX_BINARY with
                | Some b => if PyStr.truthy b then Some b else None
                | None => None
                end in
  let p := set_preference "webdriver_assume_untrusted_issuer" (PBool false)
             (set_preference "network.proxy.socks_remote_dns" (PBool true)
                (set_preference "network.proxy.socks_port" (PInt tor_port)
                   (set_preference "network.proxy.socks" (PStr tor_host)
                      (set_preference "network.proxy.type" (PInt 1)
                         (default_preferences sel))))) in
  {| arguments := args; binary_location := binary; profile := p |}.

(** Lines 35-61: the calls made and the driver returned, or the exception
    that leaves the function. *)
Definition make_firefox_driver (sel : Selenium) (headless : bool)
    (tor_host : str) (tor_port : Z) : list request * (exc + Driver) :=
  let options := make_options sel headless tor_host tor_port in
  match firefox sel GECKODRIVER_PATH options with
  | inl e => ([CallFirefox GECKODRIVER_PATH options], inl e)
  | inr driver =>
      match set_page_load_timeout sel 60 with
      | Some e =>
          ([CallFirefox GECKODRIVER_PATH options; CallTimeout 60], inl e)
      | None =>
          ([CallFirefox GECKODRIVER_PATH options; CallTimeout 60], inr driver)
      end
  end.

(** The function as line 120 calls it: with the default host and port. *)
Definition as_collaborator (sel : Selenium) (headless : bool) : exc + Driver :=
  (make_firefox_driver sel headless TOR_SOCKS_HOST TOR_SOCKS_PORT).2.

End Browser.

(* ===================================================================== *)
(** * More concrete collaborators for examples *)
(* ===================================================================== *)

Definition with_title (w : World) (f : Z -> str -> exc + str) : World := {|
  read_lines := read_lines w;
  make_firefox_driver := make_firefox_driver w;
  driver_get := driver_get w;
  driver_page_source := driver_page_source w;
  driver_title := f;
  driver_quit := driver_quit w;
  get_text := get_text w;
  random_uniform := random_uniform w;
  utcnow_isoformat := utcnow_isoformat w;
  time_time := time_time w;
  os_sleep := os_sleep w;
  open_write := open_write w
|}.

(** Three links with the keyword, but the title of a page cannot be read. *)
Definition notitle_world : World :=
  with_title abc_world (fun _ _ => inl (WebDriverException "no title")).

(** A Selenium that starts Firefox but cannot set the page-load timeout. *)
Definition flaky_selenium : Browser.Selenium := {|
  Browser.default_preferences :=
    {["browser.startup.page" := Browser.PInt 0]};
  Browser.firefox := fun _ _ => inr Firefox;
  Browser.set_page_load_timeout :=
    fun _ => Some (WebDriverException "timeout not set")
|}.

(** An entry whose title holds markup. *)
Definition markup_entry : entry := {|
  url := lit "http://a.onion";
  title := lit "<b>bold</b>";
  snippet := lit "...x...";
  timestamp := lit "2024-01-01T00:00:00Z"
|}.

(* ===================================================================== *)
(* ===================================================================== *)
(** * Facts about the [str] methods *)
(* ===================================================================== *)

Lemma startswith_spec k s :
  PyStr.startswith k s = true <-> exists post, s = k ++ post.
Proof.
  revert s. induction k as [|a k IH]; intros s.
  - simpl. split; eauto.
  - destruct s as [|b s]; simpl.
    + split; [discriminate|]. intros [post H]. discriminate.
    + destruct (N.eqb_spec a b) as [->|Hne]; simpl.
      * rewrite IH. split; intros [post H]; exists post.
        -- by rewrite H.
        -- by injection H.
      * split; [discriminate|]. intros [post H]. injection H as H1 H2.
        congruence.
Qed.

Lemma occurs_at_0 k s : occurs_at k s 0 <-> PyStr.startswith k s = true.
Proof.
  rewrite startswith_spec. split.
  - intros (pre & post & -> & Hl). destruct pre; [|discriminate]. eauto.
  - intros [post ->]. exists [], post. eauto.
Qed.

Lemma occurs_at_S k c s i : occurs_at k (c :: s) (S i) <-> occurs_at k s i.
Proof.
  split.
  - intros (pre & post & H & Hl). destruct pre as [|a pre]; [discriminate|].
    injection H as -> ->. exists pre, post. split; [done|]. simpl in Hl. lia.
  - intros (pre & post & -> & Hl). exists (c :: pre), post.
    split; [done|]. simpl. lia.
Qed.

Lemma occurs_at_empty k i : occurs_at k [] i -> i = 0%nat.
Proof.
  intros (pre & post & H & Hl). destruct pre; [done|discriminate].
Qed.

Lemma find_nil k :
  PyStr.find [] k = if PyStr.startswith k [] then 0 else -1.
Proof. reflexivity. Qed.

Lemma find_cons c s k :
  PyStr.find (c :: s) k =
  if PyStr.startswith k (c :: s) then 0
  else if PyStr.find s k =? -1 then -1 else PyStr.find s k + 1.
Proof. reflexivity. Qed.

Lemma find_ge s k : -1 <= PyStr.find s k.
Proof.
  induction s as [|c s IH]; [rewrite find_nil|rewrite find_cons].
  - destruct (PyStr.startswith k []); lia.
  - destruct (PyStr.startswith k (c :: s)); [lia|].
    destruct (PyStr.find s k =? -1) eqn:E; lia.
Qed.

(** [find] answers -1 exactly when the key occurs nowhere. *)
Lemma find_none s k : PyStr.find s k = -1 <-> forall i, ¬ occurs_at k s i.
Proof.
  induction s as [|c s IH]; [rewrite find_nil|rewrite find_cons].
  - destruct (PyStr.startswith k []) eqn:E.
    + split; [lia|]. intros H. exfalso. apply (H 0%nat). by apply occurs_at_0.
    + split; [|done]. intros _ i Hi.
      pose proof (occurs_at_empty _ _ Hi) as ->.
      apply occurs_at_0 in Hi. congruence.
  - destruct (PyStr.startswith k (c :: s)) eqn:E.
    + split; [lia|]. intros H. exfalso. apply (H 0%nat). by apply occurs_at_0.
    + pose proof (find_ge s k) as Hge.
      destruct (PyStr.find s k =? -1) eqn:E1.
      * apply Z.eqb_eq in E1. split; [|done]. intros _ [|i] Hi.
        -- apply occurs_at_0 in Hi. congruence.
        -- apply occurs_at_S in Hi. apply IH in Hi; done.
      * apply Z.eqb_neq in E1. split; [lia|]. intros H. exfalso. apply E1, IH.
        intros i Hi. apply (H (S i)). by apply occurs_at_S.
Qed.

(** [find] answers the index of the first occurrence. *)
Lemma find_first s k i :
  PyStr.find s k = Z.of_nat i <-> first_occurrence k s i.
Proof.
  revert i. induction s as [|c s IH]; intros i;
    [rewrite find_nil|rewrite find_cons].
  - destruct (PyStr.startswith k []) eqn:E.
    + split.
      * intros H. assert (i = 0%nat) as -> by lia.
        split; [by apply occurs_at_0|lia].
      * intros [H _]. apply occurs_at_empty in H. lia.
    + split; [lia|]. intros [H _]. pose proof (occurs_at_empty _ _ H) as ->.
      apply occurs_at_0 in H. congruence.
  - destruct (PyStr.startswith k (c :: s)) eqn:E.
    + split.
      * intros H. assert (i = 0%nat) as -> by lia.
        split; [by apply occurs_at_0|lia].
      * intros [_ H]. apply occurs_at_0 in E. apply H in E. lia.
    + pose proof (find_ge s k) as Hge.
      destruct (PyStr.find s k =? -1) eqn:E1.
      * apply Z.eqb_eq in E1. split; [lia|]. intros [H _].
        destruct i as [|i].
        -- apply occurs_at_0 in H. congruence.
        -- apply occurs_at_S in H. apply find_none in H; done.
      * apply Z.eqb_neq in E1. destruct i as [|i].
        -- split; [lia|]. intros [H _]. apply occurs_at_0 in H. congruence.
        -- replace (PyStr.find s k + 1 = Z.of_nat (S i))
             with (PyStr.find s k + 1 = Z.of_nat i + 1) by (f_equal; lia).
           rewrite Z.add_cancel_r, IH. split; intros [H1 H2]; split.
           ++ by apply occurs_at_S.
           ++ intros [|j] Hj; [apply occurs_at_0 in Hj; congruence|].
              apply occurs_at_S in Hj. apply H2 in Hj. lia.
           ++ by apply occurs_at_S in H1.
           ++ intros j Hj. apply (occurs_at_S k c) in Hj. apply H2 in Hj. lia.
Qed.

(** The slice taken at lines 73-75 for an index [i] of the lowered text:
    the code points of the body from [max(0, i-120)] up to
    [min(len, i+120)]. *)
Lemma slice_window (html : str) (i : nat) :
  PyStr.slice html (Z.max 0 (Z.of_nat i - 120))
              (Z.min (PyStr.len html) (Z.of_nat i + 120)) =
  take (Nat.min (length html) (i + 120) - (i - 120)) (drop (i - 120) html).
Proof. unfold PyStr.slice, PyStr.len. f_equal; [lia|f_equal; lia]. Qed.

Lemma isspace_newline_to_space c :
  PyStr.isspace (if (c =? 10)%N then 32%N else c) = PyStr.isspace c.
Proof. destruct (N.eqb_spec c 10) as [->|]; reflexivity. Qed.

Lemma replace_lstrip s :
  PyStr.replace 10%N 32%N (PyStr.lstrip s)
  = PyStr.lstrip (PyStr.replace 10%N 32%N s).
Proof.
  induction s as [|c s IH]; simpl; [done|].
  rewrite isspace_newline_to_space. by destruct (PyStr.isspace c).
Qed.

Lemma replace_rstrip s :
  PyStr.replace 10%N 32%N (PyStr.rstrip s)
  = PyStr.rstrip (PyStr.replace 10%N 32%N s).
Proof.
  induction s as [|c s IH]; simpl; [done|].
  rewrite <- IH, isspace_newline_to_space.
  destruct (PyStr.rstrip s); simpl; [by destruct (PyStr.isspace c)|done].
Qed.

(** Trimming and then replacing newlines (the order of line 81) gives what
    replacing and then trimming gives. *)
Lemma replace_strip s :
  PyStr.replace 10%N 32%N (PyStr.strip s)
  = PyStr.strip (PyStr.replace 10%N 32%N s).
Proof. unfold PyStr.strip. by rewrite replace_rstrip, replace_lstrip. Qed.

Lemma truthy_nonempty s : PyStr.truthy s = true <-> s ≠ [].
Proof. destruct s; simpl; split; congruence. Qed.

(* ===================================================================== *)
(** * The snippet extractor *)
(* ===================================================================== *)

Lemma lit_dots : lit "..." = [46; 46; 46]%N.
Proof. reflexivity. Qed.

(** Every snippet comes from the first occurrence of the lowered keyword
    in the lowered body. *)
Lemma search_in_html_some w html kw r :
  search_in_html w html kw = Some r ->
  exists k i,
    kw = Some k /\ k ≠ [] /\
    first_occurrence (PyStr.lower k) (PyStr.lower html) i /\
    let window := PyStr.slice html (Z.max 0 (Z.of_nat i - 120))
                    (Z.min (PyStr.len html) (Z.of_nat i + 120)) in
    let s := match get_text w window with Some t => t | None => window end in
    r = lit "..." ++ PyStr.replace 10%N 32%N (PyStr.strip s) ++ lit "...".
Proof.
  unfold search_in_html. destruct kw as [k|]; [|done].
  destruct (PyStr.truthy k) eqn:Ek; simpl; [|done].
  pose proof (find_ge (PyStr.lower html) (PyStr.lower k)) as Hge.
  destruct (PyStr.find (PyStr.lower html) (PyStr.lower k) =? -1) eqn:E; [done|].
  apply Z.eqb_neq in E. intros [= <-].
  exists k, (Z.to_nat (PyStr.find (PyStr.lower html) (PyStr.lower k))).
  split; [done|]. split; [by apply truthy_nonempty|].
  split; [apply find_first; lia|].
  rewrite Z2Nat.id by lia. done.
Qed.

(** C6, the defect. The index found at line 70 is an index of the lowered
    body, and lines 73-75 cut the body itself at that index. Lowering
    U+0130 gives two code points, so in the body of two hundred U+0130
    followed by [key] the keyword, whose first occurrence in the body is at
    index 200, is found at index 400 of the lowered body; the slice
    [html[280:203]] is empty, and the snippet is made of the empty window
    whatever [get_text] answers: six dots when [get_text] answers the empty
    text or fails. The window around index 200, [html[80:203]], is not
    what is cut. *)
Theorem snippet_window_misses_the_match w :
  let html := dotted_page in
  let kw := lit "key" in
  first_occurrence kw html 200 /\
  PyStr.find (PyStr.lower html) (PyStr.lower kw) = 400 /\
  PyStr.slice html (Z.max 0 (400 - 120)) (Z.min (PyStr.len html) (400 + 120))
    = [] /\
  search_in_html w html (Some kw) =
    Some (lit "..." ++
          PyStr.replace 10%N 32%N
            (PyStr.strip match get_text w [] with Some t => t | None => [] end)
          ++ lit "...") /\
  (get_text w [] = Some [] \/ get_text w [] = None ->
   search_in_html w html (Some kw) = Some (lit "......")).
Proof.
  cbv zeta.
  assert (H : search_in_html w dotted_page (Some (lit "key")) =
    Some (lit "..." ++
          PyStr.replace 10%N 32%N
            (PyStr.strip match get_text w [] with Some t => t | None => [] end)
          ++ lit "...")).
  { unfold search_in_html.
    change (PyStr.truthy (lit "key")) with true. cbn [negb].
    change (PyStr.find (PyStr.lower dotted_page) (PyStr.lower (lit "key")))
      with 400.
    change (400 =? -1) with false. cbv zeta.
    change (PyStr.slice dotted_page (Z.max 0 (400 - 120))
              (Z.min (PyStr.len dotted_page) (400 + 120))) with (@nil N).
    done. }
  split; [apply find_first; vm_compute; reflexivity|].
  split; [vm_compute; reflexivity|].
  split; [vm_compute; reflexivity|].
  split; [exact H|].
  rewrite H. intros [-> | ->]; reflexivity.
Qed.

(** X21. What [search_in_html] computes, for every body and non-empty
    keyword: it looks for the lowered keyword in the lowered body; when it
    does not occur there, there is no snippet; when its first occurrence
    in the lowered body is at index [i], the snippet is made of the code
    points of the body from [max(0, i-120)] up to [min(len, i+120)], with
    tags removed by [get_text] (or as they are when [get_text] fails),
    newlines replaced by spaces, surrounding whitespace trimmed, and three
    dots on each side. *)
Theorem search_in_html_contract w html kw :
  kw ≠ [] ->
  (¬ (exists i, occurs_at (PyStr.lower kw) (PyStr.lower html) i) ->
   search_in_html w html (Some kw) = None) /\
  (forall i, first_occurrence (PyStr.lower kw) (PyStr.lower html) i ->
     let window := take (Nat.min (length html) (i + 120) - (i - 120))
                     (drop (i - 120) html) in
     let text := match get_text w window with Some t => t | None => window end in
     search_in_html w html (Some kw) =
       Some (lit "..." ++ PyStr.strip (PyStr.replace 10%N 32%N text)
               ++ lit "...")).
Proof.
  intros Hkw. apply truthy_nonempty in Hkw. split.
  - intros Hno. unfold search_in_html. rewrite Hkw. simpl.
    replace (PyStr.find (PyStr.lower html) (PyStr.lower kw)) with (-1); [done|].
    symmetry. apply find_none. intros i Hi. apply Hno. eauto.
  - intros i Hi. apply find_first in Hi. unfold search_in_html.
    rewrite Hkw, Hi. simpl.
    destruct (Z.of_nat i =? -1) eqn:E; [apply Z.eqb_eq in E; lia|].
    rewrite slice_window, replace_strip. done.
Qed.

Lemma search_in_html_contract_witness :
  search_in_html abc_world (lit "<p>hello WORLD test page</p>")
    (Some (lit "world"))
  = Some (lit "...hello WORLD test page...").
Proof.
  rewrite (proj2 (search_in_html_contract abc_world
                    (lit "<p>hello WORLD test page</p>") (lit "world")
                    ltac:(discriminate))
             9%nat).
  - reflexivity.
  - apply find_first. reflexivity.
Defined.

(** C10. Snippet soundness and shape: a returned snippet means the keyword
    is non-empty and its lowered form occurs in the lowered body; the
    snippet begins and ends with three dots and is never empty. *)
Theorem snippet_sound w html kw r :
  search_in_html w html kw = Some r ->
  exists k,
    kw = Some k /\ k ≠ [] /\
    (exists i, occurs_at (PyStr.lower k) (PyStr.lower html) i) /\
    starts_with (lit "...") r /\ ends_with (lit "...") r /\ r ≠ [].
Proof.
  intros H. apply search_in_html_some in H as (k & i & -> & Hk & [Hocc _] & ->).
  exists k. split; [done|]. split; [done|]. split; [eauto|].
  split; [by eexists|]. split; [eexists; by rewrite app_assoc|].
  rewrite lit_dots. discriminate.
Qed.

Lemma snippet_sound_witness :
  exists k,
    Some (lit "world") = Some k /\ k ≠ [] /\
    (exists i, occurs_at (PyStr.lower k)
                 (PyStr.lower (lit "<p>hello WORLD test page</p>")) i) /\
    starts_with (lit "...") (lit "...hello WORLD test page...") /\
    ends_with (lit "...") (lit "...hello WORLD test page...") /\
    lit "...hello WORLD test page..." ≠ [].
Proof.
  apply (snippet_sound abc_world (lit "<p>hello WORLD test page</p>")
           (Some (lit "world"))).
  reflexivity.
Defined.

(* ===================================================================== *)
(** * Link deduplication *)
(* ===================================================================== *)

(** The comprehension of line 102 trims and then drops the empty lines. *)
Lemma stripped_links_trimmed raw : stripped_links raw = trimmed_nonempty raw.
Proof.
  unfold stripped_links, trimmed_nonempty.
  induction raw as [|ln raw IH]; [done|].
  rewrite fmap_cons, !filter_cons.
  destruct (decide (PyStr.strip ln ≠ [])); [rewrite fmap_cons|];
    by rewrite IH.
Qed.

Lemma stripped_links_nil raw :
  stripped_links raw = [] <-> Forall (fun ln => PyStr.strip ln = []) raw.
Proof.
  unfold stripped_links. induction raw as [|ln raw IH]; [by split|].
  rewrite filter_cons, Forall_cons.
  destruct (decide (PyStr.strip ln ≠ [])) as [H|H].
  - rewrite fmap_cons. split; [done|]. tauto.
  - rewrite IH. apply dec_stable in H. tauto.
Qed.

Lemma first_occurrences_filter (P : str -> Prop) `{!∀ x, Decision (P x)} l :
  filter P (first_occurrences l) = first_occurrences (filter P l).
Proof.
  induction l as [|x l IH]; [done|]. simpl.
  rewrite !filter_cons. destruct (decide (P x)) as [HP|HP]; simpl.
  - f_equal. rewrite <- IH. rewrite !list_filter_filter.
    apply list_filter_iff. tauto.
  - rewrite <- IH, list_filter_filter. apply list_filter_iff.
    intros y. split; [tauto|]. intros Hy. split; [done|]. congruence.
Qed.

(** The loop invariant of lines 108-113: the result so far, followed by the
    first occurrences among the links not yet seen. *)
Lemma dedup_loop_spec (links : list str) (seen : gset str) (acc : list str) :
  dedup_loop links seen acc =
  acc ++ first_occurrences (filter (fun x => x ∉ seen) links).
Proof.
  revert seen acc. induction links as [|l links IH]; intros seen acc; simpl.
  - by rewrite app_nil_r.
  - rewrite filter_cons. destruct (decide (l ∈ seen)) as [Hin|Hin].
    + rewrite decide_False by tauto. apply IH.
    + rewrite decide_True by done. rewrite IH, <- app_assoc. simpl.
      do 2 f_equal. rewrite first_occurrences_filter, list_filter_filter.
      f_equal. apply list_filter_iff. intros y.
      rewrite not_elem_of_union, not_elem_of_singleton. tauto.
Qed.

Lemma dedup_first_occurrences links : dedup links = first_occurrences links.
Proof.
  unfold dedup. rewrite dedup_loop_spec. simpl. f_equal.
  induction links as [|x l IH]; [done|].
  rewrite filter_cons, decide_True by apply not_elem_of_empty. by f_equal.
Qed.

Lemma first_occurrences_elem x l : x ∈ first_occurrences l <-> x ∈ l.
Proof.
  induction l as [|y l IH]; simpl; [done|].
  rewrite !elem_of_cons, list_elem_of_filter, IH.
  destruct (decide (x = y)); tauto.
Qed.

Lemma first_occurrences_NoDup l : NoDup (first_occurrences l).
Proof.
  induction l as [|y l IH]; simpl; constructor.
  - rewrite list_elem_of_filter. tauto.
  - by apply NoDup_filter.
Qed.

(** A further value goes to the end of the result, or is dropped when it
    occurred before: the result is in order of first appearance. *)
Lemma first_occurrences_snoc l x :
  first_occurrences (l ++ [x]) =
  if decide (x ∈ l) then first_occurrences l else first_occurrences l ++ [x].
Proof.
  induction l as [|y l IH].
  - simpl. destruct (decide (x ∈ [])) as [Hin|Hin];
      [by apply elem_of_nil in Hin|done].
  - rewrite <- app_comm_cons. cbn [first_occurrences]. rewrite IH.
    destruct (decide (x ∈ l)) as [Hin|Hin].
    + rewrite decide_True by (by apply elem_of_cons; right). done.
    + rewrite filter_app, filter_cons, filter_nil.
      destruct (decide (x ≠ y)) as [Hne|Heq];
        destruct (decide (x ∈ y :: l)) as [Hin'|Hin']; try done.
      * apply elem_of_cons in Hin'. tauto.
      * by rewrite app_nil_r.
      * exfalso. apply Hin', elem_of_cons. left.
        by destruct (decide (x = y)).
Qed.

Lemma trimmed_nonempty_snoc raw ln :
  trimmed_nonempty (raw ++ [ln]) =
  if decide (PyStr.strip ln = []) then trimmed_nonempty raw
  else trimmed_nonempty raw ++ [PyStr.strip ln].
Proof.
  unfold trimmed_nonempty. rewrite fmap_app, filter_app. simpl.
  rewrite filter_cons, filter_nil.
  destruct (decide (PyStr.strip ln = [])) as [->|Hne].
  - rewrite decide_False by tauto. by rewrite app_nil_r.
  - by rewrite decide_True.
Qed.

Lemma trimmed_nonempty_elem x raw :
  x ∈ trimmed_nonempty raw <->
  x ≠ [] /\ exists ln, ln ∈ raw /\ PyStr.strip ln = x.
Proof.
  unfold trimmed_nonempty. rewrite list_elem_of_filter, list_elem_of_fmap.
  split.
  - intros [Hx (ln & -> & Hln)]. eauto.
  - intros [Hx (ln & Hln & <-)]. eauto.
Qed.

Lemma uniq_links_first_occurrences raw :
  uniq_links_of raw = first_occurrences (trimmed_nonempty raw).
Proof.
  unfold uniq_links_of. by rewrite dedup_first_occurrences, stripped_links_trimmed.
Qed.

Lemma uniq_links_NoDup raw : NoDup (uniq_links_of raw).
Proof. rewrite uniq_links_first_occurrences. apply first_occurrences_NoDup. Qed.

(** C5. Link deduplication: the output is what trimming every line,
    discarding the empty ones and keeping first occurrences gives; it has
    no repeated element; it holds exactly the distinct trimmed non-empty
    lines, each once; a further input line is appended to the output when
    it is new and dropped otherwise (order of first appearance); the empty
    input gives the empty output. *)
Theorem dedup_contract raw :
  let out := uniq_links_of raw in
  out = first_occurrences (trimmed_nonempty raw) /\
  NoDup out /\
  (forall x, x ∈ out <->
     x ≠ [] /\ exists ln, ln ∈ raw /\ PyStr.strip ln = x) /\
  (forall ln, uniq_links_of (raw ++ [ln]) =
     if decide (PyStr.strip ln = [] \/ PyStr.strip ln ∈ out) then out
     else out ++ [PyStr.strip ln]) /\
  uniq_links_of [] = [].
Proof.
  cbv zeta. split; [apply uniq_links_first_occurrences|].
  split; [apply uniq_links_NoDup|]. split; [|split; [|done]].
  - intros x.
    by rewrite uniq_links_first_occurrences, first_occurrences_elem,
      trimmed_nonempty_elem.
  - intros ln. rewrite !uniq_links_first_occurrences, trimmed_nonempty_snoc.
    destruct (decide (PyStr.strip ln = [])) as [He|He].
    + by rewrite decide_True by tauto.
    + rewrite first_occurrences_snoc.
      destruct (decide (PyStr.strip ln ∈ trimmed_nonempty raw)) as [Hin|Hin].
      * rewrite decide_True; [done|]. right. by apply first_occurrences_elem.
      * rewrite decide_False; [done|]. rewrite first_occurrences_elem. tauto.
Qed.

(* ===================================================================== *)
(** * Observations distribute over the trace *)
(* ===================================================================== *)

Lemma attempted_app a b : attempted (a ++ b) = attempted a ++ attempted b.
Proof. apply omap_app. Qed.

Lemma pace_app a b : pace (a ++ b) = pace a ++ pace b.
Proof. apply List.filter_app. Qed.

Lemma quits_app a b : quits (a ++ b) = (quits a + quits b)%nat.
Proof. unfold quits. by rewrite List.filter_app, length_app. Qed.

Lemma acquired_app w a b :
  acquired w (a ++ b) = (acquired w a + acquired w b)%nat.
Proof. unfold acquired. by rewrite List.filter_app, length_app. Qed.

Lemma starts_app a b : starts (a ++ b) = (starts a + starts b)%nat.
Proof. unfold starts. by rewrite List.filter_app, length_app. Qed.

Lemma reports_app a b : reports (a ++ b) = reports a ++ reports b.
Proof. apply omap_app. Qed.

Lemma forallb_app_true {A} (f : A -> bool) a b :
  forallb f a = true -> forallb f b = true -> forallb f (a ++ b) = true.
Proof. intros Ha Hb. rewrite forallb_app, Ha, Hb. done. Qed.

(** The loop neither starts nor quits a driver and writes no report. *)
Lemma loop_events_quiet w tl :
  forallb loop_event tl = true ->
  quits tl = 0%nat /\ acquired w tl = 0%nat /\ starts tl = 0%nat /\ reports tl = [].
Proof.
  induction tl as [|ev tl IH]; [done|]. cbn [forallb].
  intros [Hev Htl]%andb_true_iff. destruct (IH Htl) as (Hq & Ha & Hs & Hr).
  unfold quits, acquired, starts, reports in *.
  destruct ev; try done; cbn; auto.
Qed.

Lemma attempted_main_prelude args : attempted (main_prelude args) = [].
Proof. unfold main_prelude. by destruct (negb _). Qed.

Lemma reports_main_prelude args : reports (main_prelude args) = [].
Proof. unfold main_prelude. by destruct (negb _). Qed.

Lemma quits_main_prelude args : quits (main_prelude args) = 0%nat.
Proof. unfold main_prelude. by destruct (negb _). Qed.

Lemma starts_main_prelude args : starts (main_prelude args) = 0%nat.
Proof. unfold main_prelude. by destruct (negb _). Qed.

(* ===================================================================== *)
(** * One pass of the loop, and the loop *)
(* ===================================================================== *)

Lemma sleep_ns_nonneg d : (0 <= d)%Q -> 0 <= sleep_ns d.
Proof.
  intros Hd. unfold sleep_ns. cbv zeta.
  assert (H : (0 <= d * 1000000000)%Q) by (apply Qmult_le_0_compat; done).
  apply Qle_bool_iff in H as Hb. rewrite Hb.
  change 0 with (Qceiling 0). by apply Qceiling_resp_le.
Qed.

Lemma sleep_ns_mono d1 d2 :
  (0 <= d1)%Q -> (d1 <= d2)%Q -> sleep_ns d1 <= sleep_ns d2.
Proof.
  intros H0 H12. unfold sleep_ns. cbv zeta.
  assert (H1 : (0 <= d1 * 1000000000)%Q) by (apply Qmult_le_0_compat; done).
  assert (H2 : (d1 * 1000000000 <= d2 * 1000000000)%Q)
    by (apply Qmult_le_compat_r; done).
  assert (H3 : (0 <= d2 * 1000000000)%Q) by (by apply Qle_trans with (d1 * 1000000000)%Q).
  apply Qle_bool_iff in H1 as ->. apply Qle_bool_iff in H3 as ->.
  by apply Qceiling_resp_le.
Qed.

(** [time.sleep] raises nothing for a duration within what it takes. *)
Lemma sleep_answer_accepts w dmax c d :
  sleep_accepts w dmax -> (0 <= d)%Q -> (d <= dmax)%Q ->
  sleep_answer w c d = None.
Proof.
  intros [Hmax Hos] H0 Hd. unfold sleep_answer. cbv zeta.
  pose proof (sleep_ns_nonneg d H0) as Hn.
  pose proof (sleep_ns_mono d dmax H0 Hd) as Hm.
  destruct (Z.leb_spec (- 2 ^ 63) (sleep_ns d)) as [_|?]; [|lia].
  destruct (Z.ltb_spec (sleep_ns d) (2 ^ 63)) as [_|?]; [|lia].
  destruct (Z.ltb_spec (sleep_ns d) 0) as [?|_]; [lia|].
  cbn. by apply Hos.
Qed.

Ltac unfold_monad :=
  unfold crawl_loop, loop_body, attempt, attempt_handlers, time_sleep, release,
    write_result_html, try_except, try_finally, print, emit, call, call_val,
    get_count, set_count, set_entries, get_entries, append_entry,
    bind, ret, raise in *.

Section LoopBody.

Variable w : World.
Variable kw : option str.
Variable N : Z.
Variables dmin dmax : Q.

(** What one pass does, by cases: at the cap it only prints and breaks;
    below the cap it fetches [link] once, appends at most one entry, for
    [link], and either sleeps once and continues or lets an exception out
    without sleeping. *)
Lemma loop_body_spec link s :
  let c := count s + 1 in
  let out := loop_body w kw N dmin dmax link s in
  count out.2 = c /\
  exists tl, trace out.2 = trace s ++ tl /\ forallb loop_event tl = true /\
    if c >? N then
      out.1 = Ok Break /\ entries out.2 = entries s /\ attempted tl = []
      /\ pace tl = []
    else
      attempted tl = [link] /\
      (entries out.2 = entries s \/
       exists e, entries out.2 = entries s ++ [e] /\ url e = link
                 /\ keyword_truthy kw = true) /\
      ((out.1 = Ok Continue /\
        pace tl = [EvGet link; EvDelay (random_uniform w c dmin dmax)]) \/
       (exists e, out.1 = Exc e /\ pace tl = [EvGet link])).
Proof.
  unfold_monad. simpl.
  destruct (count s + 1 >? N) eqn:Hc; simpl.
  - split; [done|]. eexists. split; [reflexivity|]. done.
  - repeat (case_match; simpl in *; simplify_eq).
    all: split; [done|].
    all: repeat (rewrite <- app_assoc; simpl).
    all: eexists; split; [reflexivity|]; simpl.
    all: split; [done|]; split; [done|].
    all: eauto 10.
Qed.

Lemma for_each_cons link rest s :
  crawl_loop w kw N dmin dmax (link :: rest) s =
  match loop_body w kw N dmin dmax link s with
  | (Ok Continue, s') => crawl_loop w kw N dmin dmax rest s'
  | (Ok Break, s') => (Ok tt, s')
  | (Exc e, s') => (Exc e, s')
  end.
Proof.
  unfold crawl_loop. simpl. unfold bind.
  destruct (loop_body w kw N dmin dmax link s) as [[[]|] ?]; done.
Qed.

(** The loop from any state: it fetches a prefix [take k links] of its
    links, in order; the entries it appends follow the order of those
    fetches; when it ends without an exception the prefix stops at the end
    of the list or at the cap, and every fetch was followed by one sleep;
    when an exception leaves it, the last fetch was not followed by one. *)
Lemma crawl_loop_spec links s :
  let out := crawl_loop w kw N dmin dmax links s in
  exists (k : nat) tl new,
    (k <= length links)%nat /\
    trace out.2 = trace s ++ tl /\ forallb loop_event tl = true /\
    attempted tl = take k links /\
    Z.of_nat k <= Z.max 0 (N - count s) /\
    entries out.2 = entries s ++ new /\
    (url <$> new) `sublist_of` take k links /\
    (keyword_truthy kw = false -> new = []) /\
    (out.1 = Ok tt ->
       k = Nat.min (length links) (Z.to_nat (N - count s)) /\
       pace tl = paced w dmin dmax (count s) (take k links)) /\
    (forall e, out.1 = Exc e ->
       exists (j : nat) link, k = S j /\ links !! j = Some link /\
         pace tl = paced w dmin dmax (count s) (take j links) ++ [EvGet link]).
Proof.
  revert s. induction links as [|link rest IH]; intros s.
  - exists 0%nat, [], []. simpl. rewrite !app_nil_r.
    repeat split; try done; try lia.
  - cbv zeta. rewrite for_each_cons.
    pose proof (loop_body_spec link s) as Hb. cbv zeta in Hb.
    destruct (loop_body w kw N dmin dmax link s) as [r s1]. cbn [fst snd] in Hb.
    destruct Hb as (Hc & tl1 & Htr & Hev & Hb).
    destruct (Z.gtb_spec (count s + 1) N) as [Hcap|Hcap].
    + destruct Hb as (-> & Hen & Hatt & Hpace). cbn [fst snd length].
      exists 0%nat, tl1, []. rewrite app_nil_r, take_0.
      repeat split; try done; try lia.
    + destruct Hb as (Hatt & Hen & [[-> Hpace]|(e & -> & Hpace)]).
      * specialize (IH s1). cbv zeta in IH.
        destruct (crawl_loop w kw N dmin dmax rest s1) as [r2 s2].
        cbn [fst snd length] in *.
        destruct IH as (k & tl2 & new2 & Hk & Htr2 & Hev2 & Hatt2 & Hle & Hen2
                        & Hsub & Hkw & Hok & Hexc).
        assert (exists new1, entries s1 = entries s ++ new1 /\
                  (url <$> new1) `sublist_of` [link] /\
                  (keyword_truthy kw = false -> new1 = []))
          as (new1 & Hn1 & Hs1 & Hk1).
        { destruct Hen as [->|(e & -> & <- & Hkt)].
          - exists []. rewrite app_nil_r. repeat split; try done.
            apply sublist_nil_l.
          - exists [e]. repeat split; try done. congruence. }
        exists (S k), (tl1 ++ tl2), (new1 ++ new2).
        rewrite Htr2, Htr, Hen2, Hn1, Hc in *. rewrite <- !app_assoc.
        rewrite attempted_app, Hatt, Hatt2, pace_app, Hpace.
        split; [lia|]. split; [done|]. split; [by apply forallb_app_true|].
        split; [done|]. split; [lia|]. split; [done|].
        split; [rewrite fmap_app; by apply (sublist_app _ [link])|].
        split; [intros Hf; by rewrite Hk1, Hkw|].
        split.
        -- intros Hr. destruct (Hok Hr) as [-> ->]. split; [lia|]. done.
        -- intros e He. destruct (Hexc e He) as (j & l & -> & Hl & ->).
           exists (S j), l. done.
      * cbn [fst snd length].
        exists 1%nat, tl1, (drop (length (entries s)) (entries s1)).
        cbn [take]. rewrite take_0.
        split; [lia|]. split; [done|]. split; [done|]. split; [done|].
        split; [lia|].
        destruct Hen as [->|(e' & -> & <- & Hkt)].
        -- rewrite drop_all, app_nil_r. repeat split; try done.
           ++ apply sublist_nil_l.
           ++ intros e' [= <-]. exists 0%nat, link. done.
        -- rewrite drop_app_length. repeat split; try done.
           ++ congruence.
           ++ intros e'' [= <-]. exists 0%nat, (url e'). done.
Qed.

(** The loop over the first [n] links is the loop over all of them, stopped
    after [n] passes: its trace and its entries are prefixes of the final
    ones. *)
Lemma crawl_loop_prefix links n s :
  let part := crawl_loop w kw N dmin dmax (take n links) s in
  let full := crawl_loop w kw N dmin dmax links s in
  trace part.2 `prefix_of` trace full.2 /\
  entries part.2 `prefix_of` entries full.2.
Proof.
  revert n s. induction links as [|link rest IH]; intros n s; cbv zeta.
  - by rewrite take_nil.
  - destruct n as [|n].
    + rewrite take_0.
      destruct (crawl_loop_spec (link :: rest) s)
        as (k & tl & new & _ & -> & _ & _ & _ & -> & _).
      split; by eexists.
    + rewrite firstn_cons, !for_each_cons.
      destruct (loop_body w kw N dmin dmax link s) as [[[]|e] s1]; [apply IH|done|done].
Qed.

(** An exception leaves a pass only from the fetch, when it is not an
    [Exception], or from [time.sleep]. *)
Lemma loop_body_escapes link s x :
  (loop_body w kw N dmin dmax link s).1 = Exc x ->
  escapes_pass w dmin dmax (count s + 1) link x.
Proof.
  unfold escapes_pass, loop_body, attempt, attempt_handlers, time_sleep,
    try_except, print, emit, call, call_val, get_count, set_count,
    append_entry, bind, ret, raise.
  cbn [count trace entries].
  destruct (count s + 1 >? N); cbn [fst snd]; [done|].
  intros H. repeat (case_match; simpl in *; simplify_eq).
  all: eauto 8.
Qed.

(** An exception that leaves the loop left one of its passes. *)
Lemma crawl_loop_escapes links s x :
  (crawl_loop w kw N dmin dmax links s).1 = Exc x ->
  exists (j : nat) link,
    links !! j = Some link /\
    escapes_pass w dmin dmax (count s + 1 + Z.of_nat j) link x.
Proof.
  revert s. induction links as [|link rest IH]; intros s; [done|].
  rewrite for_each_cons.
  pose proof (loop_body_escapes link s x) as Hb.
  pose proof (loop_body_spec link s) as Hc. cbv zeta in Hc.
  destruct (loop_body w kw N dmin dmax link s) as [[[]|e] s1]; cbn [fst snd] in *.
  - intros Hr. destruct Hc as [Hc _].
    destruct (IH s1 Hr) as (j & l & Hl & He).
    exists (S j), l. split; [done|]. rewrite Hc in He.
    replace (count s + 1 + Z.of_nat (S j)) with (count s + 1 + 1 + Z.of_nat j)
      by lia.
    done.
  - done.
  - intros [= ->]. exists 0%nat, link. split; [done|].
    rewrite Z.add_0_r. by apply Hb.
Qed.

Lemma is_Exception_handled link e :
  is_Exception e = true ->
  attempt_handlers link e = Some (print (failure_message link e)).
Proof. destruct e; done. Qed.

(** A fetch that raises an [Exception] costs the pass nothing but the
    message: the entries are unchanged and the pass goes on to its delay,
    where it ends as [time.sleep] answers. *)
Lemma loop_body_fetch_raises link s e :
  is_Exception e = true ->
  count s + 1 <= N ->
  fetch_raises w (count s + 1) link e ->
  let out := loop_body w kw N dmin dmax link s in
  out.1 = match sleep_answer w (count s + 1)
                  (random_uniform w (count s + 1) dmin dmax) with
          | None => Ok Continue
          | Some x => Exc x
          end /\
  count out.2 = count s + 1 /\
  entries out.2 = entries s /\
  exists tl,
    trace out.2 = trace s ++ tl /\
    attempted tl = [link] /\
    EvPrint (failure_message link e) ∈ tl /\
    forallb loop_event tl = true.
Proof.
  intros He Hcap Hraise. cbv zeta.
  unfold loop_body, attempt, try_except, bind, get_count, set_count, print,
    emit, time_sleep, ret. cbn [count trace entries].
  destruct (Z.gtb_spec (count s + 1) N) as [?|_]; [lia|].
  destruct (sleep_answer w (count s + 1)
              (random_uniform w (count s + 1) dmin dmax)) as [y|];
    (destruct Hraise as [Hget|[Hget Hsrc]]; rewrite Hget; cbn [call raise ret];
     [|rewrite Hsrc; cbn [call_val raise]];
     rewrite (is_Exception_handled link e He); unfold print, emit, raise;
     cbn [count trace entries fst snd]; repeat (rewrite <- app_assoc; simpl);
     (split; [done|]); (split; [done|]); (split; [done|]);
     (eexists; split; [reflexivity|]); simpl;
     (split; [done|]); (split; [|done]);
     rewrite !elem_of_cons; tauto).
Qed.

Hypothesis Hcontract : uniform_contract w.
Hypothesis Hmin : (0 <= dmin)%Q.
Hypothesis Hminmax : (dmin <= dmax)%Q.
Hypothesis Hsleep : sleep_accepts w dmax.

Lemma delay_accepted c :
  sleep_answer w c (random_uniform w c dmin dmax) = None.
Proof.
  destruct (Hcontract c dmin dmax Hminmax) as [H1 H2].
  apply (sleep_answer_accepts w dmax); [done| |done].
  by apply Qle_trans with dmin.
Qed.

Hypothesis Hrec : recoverable_world w.

Lemma loop_body_no_raise link s e :
  (loop_body w kw N dmin dmax link s).1 <> Exc e.
Proof.
  intros H. apply loop_body_escapes in H as [[He H]|H].
  - rewrite (Hrec _ _ _ H) in He. done.
  - by rewrite delay_accepted in H.
Qed.

(** With a driver that only raises [Exception]s and delays that
    [time.sleep] takes, no exception leaves the loop. *)
Lemma crawl_loop_no_raise links s :
  (crawl_loop w kw N dmin dmax links s).1 = Ok tt.
Proof.
  revert s. induction links as [|link rest IH]; intros s; [done|].
  rewrite for_each_cons. pose proof (loop_body_no_raise link s) as Hb.
  destruct (loop_body w kw N dmin dmax link s) as [[[]|e] s1]; cbn in *.
  - apply IH.
  - done.
  - by destruct (Hb e).
Qed.

End LoopBody.

(* ===================================================================== *)
(** * The runs of [crawl_file], by the way they end *)
(* ===================================================================== *)

(** The input file cannot be read: the exception of [open] leaves
    [crawl_file]. *)
Lemma crawl_file_unreadable w kw N dmin dmax path headless e s :
  read_lines w path = inl e ->
  crawl_file w kw N dmin dmax path headless s =
    (Exc e, {| trace := trace s ++ [EvOpen path]; count := count s;
               entries := entries s |}).
Proof.
  intros Hread. unfold crawl_file, emit, bind. rewrite Hread. done.
Qed.

(** No link in the input file: the early [return] of line 105. *)
Lemma crawl_file_no_links w kw N dmin dmax path headless raw s :
  read_lines w path = inr raw ->
  stripped_links raw = [] ->
  crawl_file w kw N dmin dmax path headless s =
    (Ok tt, {| trace := trace s ++ [EvOpen path; EvPrint MsgNoLinks];
               count := count s; entries := entries s |}).
Proof.
  intros Hread Hl. unfold crawl_file, print, emit, bind.
  rewrite Hread. cbn [call_val ret]. rewrite Hl.
  cbn [trace count entries]. by rewrite <- app_assoc.
Qed.

(** [make_firefox_driver] raises: a [WebDriverException] is caught and
    [crawl_file] returns (line 124); any other exception leaves it. *)
Lemma crawl_file_no_driver w kw N dmin dmax path headless raw e s :
  read_lines w path = inr raw ->
  stripped_links raw <> [] ->
  make_firefox_driver w headless = inl e ->
  let tr0 := trace s ++ [EvOpen path;
                         EvPrint (MsgTotalUnique (length (uniq_links_of raw)));
                         EvStart headless] in
  crawl_file w kw N dmin dmax path headless s =
    if is_WebDriverException e
    then (Ok tt, {| trace := tr0 ++ [EvPrint MsgStartFailed;
                                     EvPrint (MsgStartError e)];
                    count := count s; entries := [] |})
    else (Exc e, {| trace := tr0; count := count s; entries := [] |}).
Proof.
  intros Hread Hlinks Hstart. cbv zeta.
  unfold crawl_file, uniq_links_of, try_except, set_entries, print, emit, bind.
  cbn [trace count entries]. rewrite Hread. cbn [call_val ret].
  destruct (stripped_links raw) as [|l0 ls] eqn:Hl; [done|].
  cbn [trace count entries]. rewrite Hstart. cbn [call_val raise].
  destruct (is_WebDriverException e); cbn [ret trace count entries];
    rewrite <- !app_assoc; done.
Qed.

(** The driver is acquired: the loop runs from [loop_start], then the
    driver is quit, and the report is written unless an exception is on
    its way out. *)
Lemma crawl_file_acquired w kw N dmin dmax path headless raw d s :
  read_lines w path = inr raw ->
  stripped_links raw <> [] ->
  make_firefox_driver w headless = inr d ->
  let uniq := uniq_links_of raw in
  let tr0 := trace s ++ [EvOpen path; EvPrint (MsgTotalUnique (length uniq));
                         EvStart headless] in
  let loop := crawl_loop w kw N dmin dmax uniq (loop_start tr0) in
  let fin := crawl_file w kw N dmin dmax path headless s in
  entries fin.2 = entries loop.2 /\
  (fin.1 = Ok tt -> loop.1 = Ok tt) /\
  exists tl, trace fin.2 = trace loop.2 ++ EvQuit :: tl /\
    attempted tl = [] /\ pace tl = [] /\ quits tl = 0%nat /\
    acquired w tl = 0%nat /\
    (reports tl = [] \/
     reports tl = [(results_name (time_time w), entries loop.2)]).
Proof.
  intros Hread Hlinks Hstart. cbv zeta.
  unfold crawl_file, uniq_links_of, try_finally, try_except, release,
    write_result_html, get_entries, set_entries, set_count, print, emit, bind,
    loop_start.
  cbn [trace count entries]. rewrite Hread. cbn [call_val ret].
  destruct (stripped_links raw) as [|l0 ls] eqn:Hl; [done|].
  cbn [trace count entries]. rewrite Hstart.
  cbn [call_val ret trace count entries]. rewrite <- !app_assoc. cbn [app].
  destruct (crawl_loop w kw N dmin dmax (dedup (l0 :: ls)) _) as [r s1].
  destruct (driver_quit w) as [eq|], r as [[]|e];
    cbn [call raise ret trace count entries fst snd];
    try destruct (open_write w _);
    cbn [call raise ret trace count entries fst snd].
  all: split; [done|]; split; [done|].
  all: rewrite <- ?app_assoc; eexists; (split; [reflexivity|]); cbn; auto 10.
Qed.

Lemma main_run w args :
  run (main w args) =
  crawl_file w (Some (arg_keyword args)) (arg_max args)
    (arg_delay_min args) (arg_delay_max args) (arg_input args) (arg_headless args)
    {| trace := main_prelude args; count := 0; entries := [] |}.
Proof.
  unfold run, main, main_prelude, bind at 1 2.
  destruct (negb (PyStr.truthy (arg_keyword args))); reflexivity.
Qed.

(** Without a keyword a run keeps no entry and writes none. *)
Lemma crawl_file_no_keyword w kw N dmin dmax path headless :
  keyword_truthy kw = false ->
  let out := run (crawl_file w kw N dmin dmax path headless) in
  entries out.2 = [] /\
  forall p es, (p, es) ∈ reports (trace out.2) -> es = [].
Proof.
  intros Hkw. cbv zeta. unfold run.
  destruct (read_lines w path) as [e|raw] eqn:Hread.
  { rewrite (crawl_file_unreadable _ _ _ _ _ _ _ e) by done. cbn.
    split; [done|]. intros p es H. by apply elem_of_nil in H. }
  destruct (decide (stripped_links raw = [])) as [Hl|Hl].
  { rewrite (crawl_file_no_links _ _ _ _ _ _ _ raw) by done. cbn.
    split; [done|]. intros p es H. by apply elem_of_nil in H. }
  destruct (make_firefox_driver w headless) as [e|d] eqn:Hstart.
  { rewrite (crawl_file_no_driver _ _ _ _ _ _ _ raw e) by done.
    destruct (is_WebDriverException e); cbn;
      (split; [done|]); intros p es H; by apply elem_of_nil in H. }
  destruct (crawl_file_acquired w kw N dmin dmax path headless raw d init
              Hread Hl Hstart) as (-> & _ & tl & -> & _ & _ & _ & _ & Hrep).
  destruct (crawl_loop_spec w kw N dmin dmax (uniq_links_of raw)
              (loop_start (trace init ++
                 [EvOpen path;
                  EvPrint (MsgTotalUnique (length (uniq_links_of raw)));
                  EvStart headless])))
    as (k & tl1 & new & _ & Htr1 & Hev & _ & _ & Hen & _ & Hnew & _).
  rewrite Hen, Htr1, (Hnew Hkw) in *. cbn [loop_start trace entries app] in *.
  split; [done|]. intros p es.
  destruct (loop_events_quiet w tl1 Hev) as (_ & _ & _ & Hr1).
  change (EvQuit :: tl) with ([EvQuit] ++ tl).
  rewrite !reports_app, Hr1. cbn.
  destruct Hrep as [-> | ->]; [intros H; by apply elem_of_nil in H|].
  intros H%list_elem_of_singleton. by simplify_eq.
Qed.

Lemma paced_in_range w dmin dmax c ls d :
  uniform_contract w -> (dmin <= dmax)%Q ->
  EvDelay d ∈ paced w dmin dmax c ls -> (dmin <= d)%Q /\ (d <= dmax)%Q.
Proof.
  intros Hc Hmm. revert c. induction ls as [|l ls IH]; intros c; cbn.
  - intros H. by apply elem_of_nil in H.
  - rewrite !elem_of_cons. intros [H|[H|H]]; [done| |by eapply IH].
    injection H as ->. by apply Hc.
Qed.

Lemma timeout_world_contract : uniform_contract timeout_world.
Proof. intros c a b Hab. cbn. split; [apply Qle_refl|done]. Qed.

Lemma timeout_world_recoverable : recoverable_world timeout_world.
Proof.
  intros c link e. cbn. destruct (c =? 2); intros [H|[H|H]]; by simplify_eq.
Qed.

(* ===================================================================== *)
(** * The crawl loop: cap, order, isolation, cleanup, pacing *)
(* ===================================================================== *)

(** C1. Crawl-loop invariant. Take the loop from the state in which lines
    117 and 126 leave it, over the deduplicated links of any input, and
    stop it after any number [n] of passes (by [crawl_loop_prefix] this is
    a state the full loop goes through, and for [n] at least the number of
    links it is the final one). Then the links fetched so far are the first
    [k] deduplicated links, in order, with [k] at most [max_links]; the
    urls of the entries are a subsequence of those fetched links, so the
    entries are in the order of the fetches that produced them, and no
    entry is for one of the links not fetched; and when the loop has ended
    without an exception on a list longer than [max_links], exactly
    [max_links] links were fetched. *)
Theorem crawl_loop_invariant w kw N dmin dmax raw tr n :
  0 <= N ->
  let uniq := uniq_links_of raw in
  let out := crawl_loop w kw N dmin dmax (take n uniq) (loop_start tr) in
  exists k : nat,
    attempted (trace out.2) = attempted tr ++ take k uniq /\
    Z.of_nat k <= N /\
    (url <$> entries out.2) `sublist_of` take k uniq /\
    (forall e, e ∈ entries out.2 -> url e ∉ drop k uniq) /\
    (out.1 = Ok tt -> (length uniq <= n)%nat -> N < Z.of_nat (length uniq) ->
     Z.of_nat k = N).
Proof.
  intros HN uniq out.
  destruct (crawl_loop_spec w kw N dmin dmax (take n uniq) (loop_start tr))
    as (k & tl & new & Hk & Htr & _ & Hatt & Hle & Hen & Hsub & _ & Hok & _).
  fold out in Htr, Hen, Hok. cbn [loop_start trace count entries app] in *.
  rewrite length_take in Hk.
  assert (Htk : take k (take n uniq) = take k uniq).
  { rewrite take_take. f_equal. lia. }
  rewrite Htk in *. exists k.
  split; [by rewrite Htr, attempted_app, Hatt|].
  split; [lia|]. rewrite Hen. split; [done|]. split.
  - intros e He Hdrop.
    assert (Hin : url e ∈ take k uniq).
    { eapply elem_of_sublist; [|exact Hsub]. by apply list_elem_of_fmap_2. }
    pose proof (uniq_links_NoDup raw) as Hnd.
    fold uniq in Hnd. rewrite <- (take_drop k uniq) in Hnd.
    apply NoDup_app in Hnd as (_ & Hdis & _). by apply (Hdis (url e)).
  - intros Hr Hn HM. destruct (Hok Hr) as [-> _].
    rewrite length_take. lia.
Qed.

Lemma crawl_loop_invariant_witness :
  exists k : nat,
    attempted (trace (crawl_loop abc_world (Some (lit "world")) 2 5 12
                        (take 3 (uniq_links_of [lit "a"; lit "b"; lit "c"]))
                        (loop_start [])).2)
      = take k (uniq_links_of [lit "a"; lit "b"; lit "c"]) /\
    Z.of_nat k = 2.
Proof.
  pose proof (crawl_loop_invariant abc_world (Some (lit "world")) 2 5 12
                [lit "a"; lit "b"; lit "c"] [] 3) as H.
  cbv zeta in H. destruct H as (k & Hatt & _ & _ & _ & Hcap); [lia|].
  exists k. split; [exact Hatt|].
  apply Hcap; [vm_compute; reflexivity | vm_compute; lia | vm_compute; reflexivity].
Defined.

(** The same bounds for a whole run of [crawl_file]. *)
Lemma crawl_file_cap w kw N dmin dmax path headless :
  0 <= N ->
  let out := run (crawl_file w kw N dmin dmax path headless) in
  Z.of_nat (length (attempted (trace out.2))) <= N /\
  (url <$> entries out.2) `sublist_of` attempted (trace out.2).
Proof.
  intros HN. cbv zeta. unfold run.
  destruct (read_lines w path) as [e|raw] eqn:Hread.
  { rewrite (crawl_file_unreadable _ _ _ _ _ _ _ e) by done. cbn. split; [lia|done]. }
  destruct (decide (stripped_links raw = [])) as [Hl|Hl].
  { rewrite (crawl_file_no_links _ _ _ _ _ _ _ raw) by done. cbn. split; [lia|done]. }
  destruct (make_firefox_driver w headless) as [e|d] eqn:Hstart.
  { rewrite (crawl_file_no_driver _ _ _ _ _ _ _ raw e) by done.
    destruct (is_WebDriverException e); cbn; (split; [lia|done]). }
  destruct (crawl_file_acquired w kw N dmin dmax path headless raw d init
              Hread Hl Hstart) as (-> & _ & tl & -> & Hatt & _).
  destruct (crawl_loop_spec w kw N dmin dmax (uniq_links_of raw)
              (loop_start (trace init ++
                 [EvOpen path;
                  EvPrint (MsgTotalUnique (length (uniq_links_of raw)));
                  EvStart headless])))
    as (k & tl1 & new & Hk & -> & _ & Hatt1 & Hle & -> & Hsub & _).
  cbn [loop_start trace count entries] in *.
  change (EvQuit :: tl) with ([EvQuit] ++ tl).
  rewrite !attempted_app, Hatt, Hatt1. cbn. rewrite app_nil_r.
  split; [|done]. rewrite length_take. lia.
Qed.

Lemma timeout_world_sleep : sleep_accepts timeout_world 12.
Proof. split; [vm_compute; reflexivity|]. intros c d _ _. reflexivity. Qed.




(** C3. Guaranteed cleanup. In every run of [crawl_file], whatever the
    collaborators answer and however the loop ends (links exhausted, cap
    reached, an exception on its way out), [driver.quit()] is called as
    many times as a driver was acquired, which is at most once; and a
    driver was acquired exactly when the input held a link and
    [make_firefox_driver] returned. When the acquisition failed, or was
    never tried, [driver.quit()] is not called. *)
Theorem release_exactly_once w kw N dmin dmax path headless :
  let tr := trace (run (crawl_file w kw N dmin dmax path headless)).2 in
  quits tr = acquired w tr /\
  (acquired w tr <= 1)%nat /\
  (acquired w tr = 1%nat <->
   exists raw d, read_lines w path = inr raw /\ stripped_links raw <> [] /\
                 make_firefox_driver w headless = inr d).
Proof.
  cbv zeta. unfold run.
  destruct (read_lines w path) as [e|raw] eqn:Hread.
  { rewrite (crawl_file_unreadable _ _ _ _ _ _ _ e) by done. cbn.
    split; [done|]. split; [lia|]. split; [done|].
    by intros (raw & d & ? & _). }
  destruct (decide (stripped_links raw = [])) as [Hl|Hl].
  { rewrite (crawl_file_no_links _ _ _ _ _ _ _ raw) by done. cbn.
    split; [done|]. split; [lia|]. split; [done|].
    intros (raw' & d & [= <-] & Hne & _). done. }
  destruct (make_firefox_driver w headless) as [e|d] eqn:Hstart.
  { rewrite (crawl_file_no_driver _ _ _ _ _ _ _ raw e) by done.
    destruct (is_WebDriverException e); cbn; rewrite Hstart; cbn;
      (split; [done|]); (split; [lia|]); (split; [done|]);
      by intros (raw' & d & _ & _ & ?). }
  destruct (crawl_file_acquired w kw N dmin dmax path headless raw d init
              Hread Hl Hstart) as (_ & _ & tl & -> & _ & _ & Hq & Ha & _).
  destruct (crawl_loop_spec w kw N dmin dmax (uniq_links_of raw)
              (loop_start (trace init ++
                 [EvOpen path;
                  EvPrint (MsgTotalUnique (length (uniq_links_of raw)));
                  EvStart headless])))
    as (k & tl1 & new & _ & -> & Hev & _).
  destruct (loop_events_quiet w tl1 Hev) as (Hq1 & Ha1 & _).
  cbn [loop_start trace].
  change (EvQuit :: tl) with ([EvQuit] ++ tl).
  rewrite !quits_app, !acquired_app, Hq1, Ha1, Hq, Ha. cbn.
  rewrite Hstart. cbn. split; [done|]. split; [lia|]. split; [|done].
  intros _. eauto.
Qed.

(** C4, as the specification states it, fails: Firefox cannot be started,
    the [WebDriverException] is caught at line 121, [crawl_file] returns
    and the script ends with exit status 0, not with a fatal status. *)
Lemma acquisition_failure_exits_ok :
  read_lines nodriver_world (lit "input_links.txt") = inr [lit "a"; lit "b"; lit "c"] /\
  make_firefox_driver nodriver_world true
    = inl (WebDriverException "geckodriver not found") /\
  (run (main nodriver_world (default_args (lit "world")))).1 = Ok tt /\
  exit_ok (run (main nodriver_world (default_args (lit "world")))).1 = true.
Proof. repeat split. Qed.

(** C4, amended. When [make_firefox_driver] raises, no link is fetched, no
    report is written, [driver.quit()] is not called and no entry exists.
    A [WebDriverException] is caught: the failure is printed, the script
    body returns and the exit status is 0. Any other exception leaves the
    script, which ends with a non-zero status. *)
Theorem acquisition_failure w args raw e :
  read_lines w (arg_input args) = inr raw ->
  stripped_links raw <> [] ->
  make_firefox_driver w (arg_headless args) = inl e ->
  let out := run (main w args) in
  attempted (trace out.2) = [] /\
  reports (trace out.2) = [] /\
  quits (trace out.2) = 0%nat /\
  entries out.2 = [] /\
  if is_WebDriverException e
  then out.1 = Ok tt /\ exit_ok out.1 = true /\
       EvPrint MsgStartFailed ∈ trace out.2 /\
       EvPrint (MsgStartError e) ∈ trace out.2
  else out.1 = Exc e /\ exit_ok out.1 = false.
Proof.
  intros Hread Hl Hstart. cbv zeta. rewrite main_run.
  rewrite (crawl_file_no_driver _ _ _ _ _ _ _ raw e) by done.
  cbn [trace count entries].
  destruct (is_WebDriverException e); cbn [fst snd trace entries];
    rewrite ?attempted_app, ?reports_app, ?quits_app,
      attempted_main_prelude, reports_main_prelude, quits_main_prelude;
    repeat split; try done.
  all: rewrite !elem_of_app, !elem_of_cons; tauto.
Qed.

Lemma acquisition_failure_witness :
  let out := run (main nodriver_world (default_args (lit "world"))) in
  attempted (trace out.2) = [] /\ reports (trace out.2) = [] /\
  quits (trace out.2) = 0%nat /\ entries out.2 = [] /\
  out.1 = Ok tt /\ exit_ok out.1 = true /\
  EvPrint MsgStartFailed ∈ trace out.2 /\
  EvPrint (MsgStartError (WebDriverException "geckodriver not found"))
    ∈ trace out.2.
Proof.
  apply (acquisition_failure nodriver_world (default_args (lit "world"))
           [lit "a"; lit "b"; lit "c"] (WebDriverException "geckodriver not found")).
  - reflexivity.
  - discriminate.
  - reflexivity.
Defined.

(** C7. No-keyword behaviour: with the keyword absent ([None]) or empty,
    the extractor answers [None] for every body, and a run of [crawl_file]
    ends with no entry and writes none, whatever the collaborators
    answer. *)
Theorem no_keyword_no_matches w kw N dmin dmax path headless :
  kw = None \/ kw = Some [] ->
  (forall html, search_in_html w html kw = None) /\
  let out := run (crawl_file w kw N dmin dmax path headless) in
  entries out.2 = [] /\
  forall p es, (p, es) ∈ reports (trace out.2) -> es = [].
Proof.
  intros Hkw. split.
  - intros html. by destruct Hkw as [-> | ->].
  - apply crawl_file_no_keyword. by destruct Hkw as [-> | ->].
Qed.

Lemma no_keyword_no_matches_witness :
  search_in_html abc_world (hello_page (lit "a")) (Some []) = None /\
  entries (run (crawl_file abc_world (Some []) 50 5 12
                  (lit "input_links.txt") true)).2 = [].
Proof.
  destruct (no_keyword_no_matches abc_world (Some []) 50 5 12
              (lit "input_links.txt") true) as (Hs & He & _).
  - right. reflexivity.
  - split; [apply Hs|exact He].
Defined.

(** C8, as the specification states it, fails: with one link and the cap
    far away, the run sleeps after its final (and only) fetch. *)
Lemma sleep_after_final_attempt :
  let tr := trace (run (crawl_file (page_world [lit "a"] hello_page) (Some (lit "world"))
                          50 5 12 (lit "input_links.txt") true)).2 in
  attempted tr = [lit "a"] /\
  pace tr = [EvGet (lit "a"); EvDelay 5] /\
  last (pace tr) = Some (EvDelay 5).
Proof. vm_compute. repeat split. Qed.

(** C8, amended. The loop fetches a prefix of its links. When it ends
    without an exception, every fetch, the final one included, is followed
    by one sleep of the duration [random.uniform(delay_min, delay_max)]
    answered at that attempt, and nothing else is slept: the pass that
    stops at the cap does not sleep. When an exception leaves the loop, the
    fetch of that pass is not followed by a sleep. A duration answered by
    [random.uniform] lies between [delay_min] and [delay_max]. *)
Theorem delay_after_every_attempt w kw N dmin dmax links s :
  let out := crawl_loop w kw N dmin dmax links s in
  exists k : nat,
    attempted (trace out.2) = attempted (trace s) ++ take k links /\
    (out.1 = Ok tt ->
       pace (trace out.2) =
         pace (trace s) ++ paced w dmin dmax (count s) (take k links)) /\
    (forall e, out.1 = Exc e ->
       exists (j : nat) link, k = S j /\ links !! j = Some link /\
         pace (trace out.2) =
           pace (trace s) ++ paced w dmin dmax (count s) (take j links)
             ++ [EvGet link]) /\
    (uniform_contract w -> (dmin <= dmax)%Q ->
       forall c ls d, EvDelay d ∈ paced w dmin dmax c ls ->
         (dmin <= d)%Q /\ (d <= dmax)%Q).
Proof.
  cbv zeta.
  destruct (crawl_loop_spec w kw N dmin dmax links s)
    as (k & tl & new & _ & Htr & _ & Hatt & _ & _ & _ & _ & Hok & Hexc).
  exists k. rewrite Htr, attempted_app, pace_app, Hatt.
  split; [done|]. split.
  - intros Hr. by destruct (Hok Hr) as [_ ->].
  - split.
    + intros e He. destruct (Hexc e He) as (j & l & -> & Hl & ->). eauto.
    + intros Hc Hmm c ls d. by apply paced_in_range.
Qed.

Lemma delay_after_every_attempt_witness :
  exists k : nat,
    attempted (trace (crawl_loop abc_world (Some (lit "world")) 2 5 12 [lit "a"; lit "b"; lit "c"]
                        (loop_start [])).2) = take k [lit "a"; lit "b"; lit "c"] /\
    pace (trace (crawl_loop abc_world (Some (lit "world")) 2 5 12 [lit "a"; lit "b"; lit "c"]
                   (loop_start [])).2)
    = paced abc_world 5 12 0 (take k [lit "a"; lit "b"; lit "c"]).
Proof.
  pose proof (delay_after_every_attempt abc_world (Some (lit "world")) 2 5 12
                [lit "a"; lit "b"; lit "c"] (loop_start [])) as H.
  cbv zeta in H. destruct H as (k & Hatt & Hok & _).
  exists k. split; [exact Hatt|]. apply Hok. vm_compute. reflexivity.
Defined.

(** C9, as the specification states it, fails: when the input file is
    missing, [open] raises at line 100, nothing catches the exception and
    the script ends with a traceback and a non-zero status. *)
Lemma missing_input_raises :
  read_lines missing_world (lit "input_links.txt")
    = inl (Exception "FileNotFoundError") /\
  (run (main missing_world (default_args (lit "world")))).1
    = Exc (Exception "FileNotFoundError") /\
  exit_ok (run (main missing_world (default_args (lit "world")))).1 = false.
Proof. repeat split. Qed.

(** C9, amended. When the input file is read and holds no non-blank line,
    the run prints that no links were found and returns: exit status 0, no
    driver started, no link fetched, no entry. When the file cannot be
    read, the exception of [open] leaves the script (non-zero status);
    still no driver is started and no link is fetched. *)
Theorem empty_or_unreadable_input w args :
  let out := run (main w args) in
  (forall raw, read_lines w (arg_input args) = inr raw ->
     Forall (fun ln => PyStr.strip ln = []) raw ->
     out.1 = Ok tt /\ exit_ok out.1 = true /\
     trace out.2 =
       main_prelude args ++ [EvOpen (arg_input args); EvPrint MsgNoLinks] /\
     starts (trace out.2) = 0%nat /\ attempted (trace out.2) = [] /\
     entries out.2 = []) /\
  (forall e, read_lines w (arg_input args) = inl e ->
     out.1 = Exc e /\ exit_ok out.1 = false /\
     trace out.2 = main_prelude args ++ [EvOpen (arg_input args)] /\
     starts (trace out.2) = 0%nat /\ attempted (trace out.2) = [] /\
     entries out.2 = []).
Proof.
  cbv zeta. rewrite main_run. split.
  - intros raw Hread Hblank%stripped_links_nil.
    rewrite (crawl_file_no_links _ _ _ _ _ _ _ raw) by done.
    cbn [fst snd trace entries].
    rewrite starts_app, attempted_app, starts_main_prelude,
      attempted_main_prelude.
    done.
  - intros e Hread. rewrite (crawl_file_unreadable _ _ _ _ _ _ _ e) by done.
    cbn [fst snd trace entries].
    rewrite starts_app, attempted_app, starts_main_prelude,
      attempted_main_prelude.
    done.
Qed.

Lemma empty_or_unreadable_input_witness :
  ((run (main blank_world (default_args (lit "world")))).1 = Ok tt /\
   trace (run (main blank_world (default_args (lit "world")))).2 =
     main_prelude (default_args (lit "world"))
       ++ [EvOpen (lit "input_links.txt"); EvPrint MsgNoLinks]) /\
  ((run (main missing_world (default_args (lit "world")))).1
     = Exc (Exception "FileNotFoundError") /\
   trace (run (main missing_world (default_args (lit "world")))).2 =
     main_prelude (default_args (lit "world")) ++ [EvOpen (lit "input_links.txt")]).
Proof.
  split.
  - destruct (proj1 (empty_or_unreadable_input blank_world (default_args (lit "world")))
                [[]; lit "   "; [9%N]])
      as (H1 & _ & H2 & _).
    + reflexivity.
    + repeat constructor.
    + split; [exact H1|exact H2].
  - destruct (proj2 (empty_or_unreadable_input missing_world (default_args (lit "world")))
                (Exception "FileNotFoundError")) as (H1 & _ & H2 & _).
    + reflexivity.
    + split; [exact H1|exact H2].
Defined.

(* ===================================================================== *)
(** * The testable properties of the specification, on concrete runs *)
(* ===================================================================== *)

Example dedup_example :
  uniq_links_of [lit "a"; lit "b"; lit "a"; lit " b "; lit "c"] = [lit "a"; lit "b"; lit "c"].
Proof. vm_compute. reflexivity. Qed.

Example snippet_example :
  search_in_html abc_world (lit "<p>hello WORLD test page</p>") (Some (lit "world"))
  = Some (lit "...hello WORLD test page...").
Proof. vm_compute. reflexivity. Qed.

Example snippet_fallback :
  search_in_html (page_world [] hello_page) (lit "say Hello") (Some (lit "hello"))
  = Some (lit "...say Hello...").
Proof. vm_compute. reflexivity. Qed.

(** Links exhausted: three fetches, three sleeps, one quit, one report. *)
Example run_to_the_end :
  let out := run (crawl_file abc_world (Some (lit "world")) 50 5 12 (lit "in.txt") true) in
  out.1 = Ok tt /\ attempted (trace out.2) = [lit "a"; lit "b"; lit "c"] /\
  url <$> entries out.2 = [lit "a"; lit "b"; lit "c"] /\
  quits (trace out.2) = 1%nat /\ length (reports (trace out.2)) = 1%nat.
Proof. vm_compute. repeat split. Qed.

(** Cap reached: two fetches, each followed by a sleep, then the break. *)
Example run_to_the_cap :
  let out := run (crawl_file abc_world (Some (lit "world")) 2 5 12 (lit "in.txt") true) in
  out.1 = Ok tt /\
  pace (trace out.2) = [EvGet (lit "a"); EvDelay 5; EvGet (lit "b"); EvDelay 5] /\
  url <$> entries out.2 = [lit "a"; lit "b"] /\
  quits (trace out.2) = 1%nat.
Proof. vm_compute. repeat split. Qed.

(** A timeout on the second link: the third link is still fetched and the
    entries keep the order of the fetches. *)
Example run_with_timeout :
  let out := run (crawl_file timeout_world (Some (lit "world")) 50 5 12 (lit "in.txt") true) in
  out.1 = Ok tt /\ attempted (trace out.2) = [lit "a"; lit "b"; lit "c"] /\
  url <$> entries out.2 = [lit "a"; lit "c"] /\
  trace out.2 !! 13%nat = Some (EvPrint (MsgTimeout (lit "b"))) /\
  quits (trace out.2) = 1%nat.
Proof. vm_compute. repeat split. Qed.

(** An interrupt during the second fetch leaves the loop: the driver is
    still quit once, and no report is written. *)
Example run_interrupted :
  let out := run (crawl_file interrupt_world (Some (lit "world")) 50 5 12 (lit "in.txt") true) in
  out.1 = Exc (BaseException "KeyboardInterrupt") /\
  attempted (trace out.2) = [lit "a"; lit "b"] /\
  quits (trace out.2) = 1%nat /\ reports (trace out.2) = [].
Proof. vm_compute. repeat split. Qed.

(** Negative delays: [time.sleep] raises after the first fetch; the driver
    is still quit once. *)
Example run_negative_delay :
  let out := run (crawl_file abc_world (Some (lit "world")) 50 (-5) (-1) (lit "in.txt") true) in
  out.1 = Exc (Exception "sleep length must be non-negative") /\
  attempted (trace out.2) = [lit "a"] /\
  quits (trace out.2) = 1%nat.
Proof. vm_compute. repeat split. Qed.
(* ===================================================================== *)
(** * More on the snippet extractor *)
(* ===================================================================== *)

(** A property checked on every code point below [n] holds below [n]. *)
Lemma below_forall (P : N -> bool) (n : nat) :
  forallb P (N.of_nat <$> seq 0 n) = true ->
  forall c, (c < N.of_nat n)%N -> P c = true.
Proof.
  intros H c Hc. rewrite forallb_forall in H. apply H.
  apply list_elem_of_In, list_elem_of_fmap. exists (N.to_nat c).
  split; [by rewrite N2Nat.id|]. apply elem_of_seq. lia.
Qed.

Lemma lower1_above c : (384 <= c)%N -> PyStr.lower1 c = c.
Proof.
  intros H. unfold PyStr.lower1. by destruct (N.leb_spec 384 c); [|lia].
Qed.

(** Lowering a code point other than U+0130 never gives U+0130, and a
    lowered code point is its own lower-case form. *)
Lemma lower1_fixed c :
  c ≠ 304%N ->
  PyStr.lower1 c ≠ 304%N /\
  PyStr.lower1 (PyStr.lower1 c) = PyStr.lower1 c.
Proof.
  intros Hne. destruct (N.lt_ge_cases c 384) as [Hc|Hc].
  - pose proof (below_forall
      (fun c => (c =? 304)%N
                || negb (PyStr.lower1 c =? 304)%N
                   && (PyStr.lower1 (PyStr.lower1 c) =? PyStr.lower1 c)%N)
      384 ltac:(vm_compute; reflexivity) c Hc) as H.
    cbv beta in H. apply orb_true_iff in H as [H|H].
    { by apply N.eqb_eq in H. }
    apply andb_true_iff in H as [H1 H2].
    apply negb_true_iff, N.eqb_neq in H1. by apply N.eqb_eq in H2.
  - rewrite !lower1_above by (by rewrite ?lower1_above). lia.
Qed.

Lemma lower_cp_idem c : PyStr.lower_cp c ≫= PyStr.lower_cp = PyStr.lower_cp c.
Proof.
  unfold PyStr.lower_cp at 2 3.
  destruct (N.eqb_spec c 304) as [->|Hc]; [reflexivity|].
  destruct (lower1_fixed c Hc) as [Hne Hid].
  change ([PyStr.lower1 c] ≫= PyStr.lower_cp)
    with (PyStr.lower_cp (PyStr.lower1 c) ++ []).
  rewrite app_nil_r. unfold PyStr.lower_cp.
  apply N.eqb_neq in Hne. by rewrite Hne, Hid.
Qed.

Lemma lower_app a b : PyStr.lower (a ++ b) = PyStr.lower a ++ PyStr.lower b.
Proof. apply bind_app. Qed.

(** Lowering twice is lowering once. *)
Lemma lower_idem s : PyStr.lower (PyStr.lower s) = PyStr.lower s.
Proof.
  induction s as [|c s IH]; [done|].
  change (PyStr.lower (c :: s)) with (PyStr.lower_cp c ++ PyStr.lower s).
  rewrite lower_app, IH. f_equal. apply lower_cp_idem.
Qed.

(** Only the empty text is lowered to the empty text. *)
Lemma lower_truthy s : PyStr.truthy (PyStr.lower s) = PyStr.truthy s.
Proof.
  destruct s as [|c s]; [done|].
  change (PyStr.lower (c :: s)) with (PyStr.lower_cp c ++ PyStr.lower s).
  unfold PyStr.lower_cp. by destruct (c =? 304)%N.
Qed.

(** A text without U+0130 is lowered code point by code point. *)
Lemma lower_pointwise s :
  304%N ∉ s -> PyStr.lower s = PyStr.lower1 <$> s.
Proof.
  induction s as [|c s IH]; [done|].
  rewrite not_elem_of_cons. intros [Hc Hs].
  change (PyStr.lower (c :: s)) with (PyStr.lower_cp c ++ PyStr.lower s).
  rewrite fmap_cons, IH by done. unfold PyStr.lower_cp.
  by destruct (N.eqb_spec c 304); [congruence|].
Qed.

Lemma occurs_at_length k s i :
  occurs_at k s i -> (i + length k <= length s)%nat.
Proof.
  intros (pre & post & -> & <-). rewrite !length_app. lia.
Qed.

(** X1. A keyword whose lowered form is longer than the lowered body is
    never found; and nothing is found in an empty body (the page source of
    line 142 when the driver has none), whatever the keyword. *)
Theorem keyword_longer_than_body w :
  (forall html kw,
     (length (PyStr.lower html) < length (PyStr.lower kw))%nat ->
     search_in_html w html (Some kw) = None) /\
  (forall kw, search_in_html w [] kw = None).
Proof.
  assert (H : forall html kw,
     (length (PyStr.lower html) < length (PyStr.lower kw))%nat ->
     search_in_html w html (Some kw) = None).
  { intros html kw Hlen.
    destruct (search_in_html w html (Some kw)) as [r|] eqn:E; [|done].
    apply search_in_html_some in E as (k & i & [= <-] & _ & [Hocc _] & _).
    apply occurs_at_length in Hocc. lia. }
  split; [exact H|]. intros [kw|]; [|done].
  destruct kw as [|c kw]; [done|]. apply H.
  pose proof (lower_truthy (c :: kw)) as Ht.
  destruct (PyStr.lower (c :: kw)); [done|]. cbn. lia.
Qed.

Lemma keyword_longer_than_body_witness :
  search_in_html abc_world (lit "wor") (Some (lit "world")) = None.
Proof.
  apply (proj1 (keyword_longer_than_body abc_world)). vm_compute. lia.
Defined.

Lemma search_in_html_lower_eq w html k1 k2 :
  PyStr.lower k1 = PyStr.lower k2 ->
  search_in_html w html (Some k1) = search_in_html w html (Some k2).
Proof.
  intros Hl. unfold search_in_html.
  rewrite <- (lower_truthy k1), <- (lower_truthy k2), Hl. done.
Qed.

(** X2. The case of the keyword does not matter: a keyword and its lowered
    form give the same answer on every body; and the case of the body does
    not decide whether a snippet is found. *)
Theorem keyword_case_is_ignored w html kw :
  search_in_html w html (Some (PyStr.lower kw)) = search_in_html w html (Some kw) /\
  (is_Some (search_in_html w (PyStr.lower html) (Some kw)) <->
   is_Some (search_in_html w html (Some kw))).
Proof.
  split; [apply search_in_html_lower_eq, lower_idem|].
  unfold search_in_html. rewrite lower_idem.
  destruct (negb (PyStr.truthy kw)); [done|].
  destruct (PyStr.find (PyStr.lower html) (PyStr.lower kw) =? -1); [done|].
  split; intros _; by eexists.
Qed.

Lemma lstrip_head s : head_nonspace (PyStr.lstrip s).
Proof.
  induction s as [|c s IH]; simpl; [done|].
  destruct (PyStr.isspace c) eqn:E; [done|]. simpl. done.
Qed.

Lemma lstrip_fixed s : head_nonspace s -> PyStr.lstrip s = s.
Proof. destruct s as [|c s]; simpl; [done|]. by intros ->. Qed.

Lemma rstrip_head s : head_nonspace s -> head_nonspace (PyStr.rstrip s).
Proof.
  destruct s as [|c s]; simpl; [done|]. intros Hc.
  destruct (PyStr.rstrip s); simpl; [by rewrite Hc|done].
Qed.

Lemma rstrip_idem s : PyStr.rstrip (PyStr.rstrip s) = PyStr.rstrip s.
Proof.
  induction s as [|c s IH]; simpl; [done|].
  destruct (PyStr.rstrip s) as [|d r] eqn:E.
  - destruct (PyStr.isspace c) eqn:Ec; simpl; [done|]. by rewrite Ec.
  - simpl in *. by rewrite IH.
Qed.

(** Trimming twice is trimming once. *)
Lemma strip_idem s : PyStr.strip (PyStr.strip s) = PyStr.strip s.
Proof.
  unfold PyStr.strip.
  rewrite (lstrip_fixed (PyStr.rstrip (PyStr.lstrip s)))
    by apply rstrip_head, lstrip_head.
  apply rstrip_idem.
Qed.

Lemma replace_no_newline s : 10%N ∉ PyStr.replace 10%N 32%N s.
Proof.
  induction s as [|c s IH]; simpl; [apply not_elem_of_nil|].
  rewrite not_elem_of_cons. split; [|done].
  destruct (N.eqb_spec c 10); [done|congruence].
Qed.

(** X3. A snippet is a single line and its text is trimmed: it holds no
    line feed, and what stands between the dots neither begins nor ends
    with whitespace. *)
Theorem snippet_single_line_trimmed w html kw r :
  search_in_html w html kw = Some r ->
  (10%N ∉ r) /\
  exists t, r = lit "..." ++ t ++ lit "..." /\ PyStr.strip t = t.
Proof.
  intros H. apply search_in_html_some in H as (k & i & -> & _ & _ & ->).
  cbv zeta. split.
  - rewrite !elem_of_app.
    intros [H|[H|H]]; [|by apply replace_no_newline in H|].
    + rewrite lit_dots, !elem_of_cons in H.
      destruct H as [H|[H|[H|H]]]; try discriminate. by apply elem_of_nil in H.
    + rewrite lit_dots, !elem_of_cons in H.
      destruct H as [H|[H|[H|H]]]; try discriminate. by apply elem_of_nil in H.
  - eexists. split; [reflexivity|]. by rewrite replace_strip, strip_idem.
Qed.

Lemma snippet_single_line_trimmed_witness :
  (10%N ∉ lit "...hello WORLD test page...") /\
  exists t, lit "...hello WORLD test page..." = lit "..." ++ t ++ lit "..."
            /\ PyStr.strip t = t.
Proof.
  apply (snippet_single_line_trimmed abc_world
           (lit "<p>hello WORLD test page</p>") (Some (lit "world"))).
  reflexivity.
Defined.

Lemma lstrip_length s : (length (PyStr.lstrip s) <= length s)%nat.
Proof.
  induction s as [|c s IH]; simpl; [lia|].
  destruct (PyStr.isspace c); simpl; lia.
Qed.

Lemma rstrip_length s : (length (PyStr.rstrip s) <= length s)%nat.
Proof.
  induction s as [|c s IH]; simpl; [lia|].
  destruct (PyStr.rstrip s); [destruct (PyStr.isspace c)|]; simpl in *; lia.
Qed.

Lemma strip_length s : (length (PyStr.strip s) <= length s)%nat.
Proof.
  unfold PyStr.strip. pose proof (rstrip_length (PyStr.lstrip s)).
  pose proof (lstrip_length s). lia.
Qed.

Lemma replace_length a b s :
  length (PyStr.replace a b s) = length s.
Proof. induction s as [|c s IH]; simpl; [done|]. by rewrite IH. Qed.

(** X4. A snippet is short: the window cut around the index found has at
    most 240 characters, the snippet has at most six characters more than
    the text [get_text] made of the window, and at most 246 characters
    when [get_text] fails and the window is used as it is. *)
Theorem snippet_length_bound w html kw r :
  search_in_html w html kw = Some r ->
  exists (k : str) (i : nat),
    kw = Some k /\
    first_occurrence (PyStr.lower k) (PyStr.lower html) i /\
    let window := take (Nat.min (length html) (i + 120) - (i - 120))
                    (drop (i - 120) html) in
    let text := match get_text w window with Some t => t | None => window end in
    (length window <= 240)%nat /\
    (length r <= length text + 6)%nat /\
    (get_text w window = None -> (length r <= 246)%nat).
Proof.
  intros H. apply search_in_html_some in H as (k & i & -> & _ & Hocc & ->).
  exists k, i. split; [done|]. split; [done|].
  cbv zeta. rewrite slice_window.
  set (window := take (Nat.min (length html) (i + 120) - (i - 120))
                   (drop (i - 120) html)).
  assert (Hw : (length window <= 240)%nat).
  { unfold window. rewrite length_take. lia. }
  assert (Hr : (length
                  (lit "..." ++ PyStr.replace 10%N 32%N
                     (PyStr.strip
                        match get_text w window with Some t => t | None => window end)
                   ++ lit "...")
                <= length
                     match get_text w window with Some t => t | None => window end
                   + 6)%nat).
  { rewrite !length_app, replace_length, lit_dots. cbn [length].
    pose proof (strip_length
      (match get_text w window with Some t => t | None => window end)).
    lia. }
  split; [done|]. split; [done|].
  intros Hn. rewrite Hn in *. lia.
Qed.

Lemma snippet_length_bound_witness :
  exists (k : str) (i : nat),
    Some (lit "world") = Some k /\
    first_occurrence (PyStr.lower k)
      (PyStr.lower (lit "<p>hello WORLD test page</p>")) i /\
    let window := take (Nat.min (length (lit "<p>hello WORLD test page</p>"))
                          (i + 120) - (i - 120))
                    (drop (i - 120) (lit "<p>hello WORLD test page</p>")) in
    let text := match get_text abc_world window with
                | Some t => t
                | None => window
                end in
    (length window <= 240)%nat /\
    (length (lit "...hello WORLD test page...") <= length text + 6)%nat /\
    (get_text abc_world window = None ->
     (length (lit "...hello WORLD test page...") <= 246)%nat).
Proof.
  apply (snippet_length_bound abc_world (lit "<p>hello WORLD test page</p>")
           (Some (lit "world"))).
  reflexivity.
Defined.

(** X5. For a body that holds neither U+0130 nor the capital sigma U+03A3
    (lowering such a body keeps every code point in its place) and a
    keyword whose lowered form has at most 120 code points, the window
    holds the whole first occurrence: the lowered keyword occurs in the
    lowered window, at index [min(i, 120)]. *)
Theorem window_holds_the_match html kw i :
  304%N ∉ html -> 931%N ∉ html ->
  (length (PyStr.lower kw) <= 120)%nat ->
  first_occurrence (PyStr.lower kw) (PyStr.lower html) i ->
  let window := take (Nat.min (length html) (i + 120) - (i - 120))
                  (drop (i - 120) html) in
  occurs_at (PyStr.lower kw) (PyStr.lower window) (Nat.min i 120).
Proof.
  intros Hdot _ Hk [Hocc _]. cbv zeta.
  pose proof (occurs_at_length _ _ _ Hocc) as Hlen.
  rewrite (lower_pointwise html Hdot), length_fmap in Hlen.
  rewrite (lower_pointwise (take _ (drop _ html))).
  2:{ intros Hin. apply Hdot.
      eapply subseteq_drop, subseteq_take, Hin. }
  rewrite fmap_take, fmap_drop, <- (lower_pointwise html Hdot).
  destruct Hocc as (pre & post & -> & Hpre).
  rewrite drop_app_le by lia.
  rewrite take_app_ge by (rewrite length_drop; lia).
  rewrite take_app_ge by (rewrite length_drop; lia).
  eexists _, _. split; [reflexivity|]. rewrite length_drop. lia.
Qed.

Lemma window_holds_the_match_witness :
  occurs_at (PyStr.lower (lit "world"))
    (PyStr.lower
       (take (Nat.min (length (lit "<p>hello WORLD test page</p>")) (9 + 120)
              - (9 - 120))
          (drop (9 - 120) (lit "<p>hello WORLD test page</p>"))))
    (Nat.min 9 120).
Proof.
  apply (window_holds_the_match (lit "<p>hello WORLD test page</p>")
           (lit "world") 9).
  - compute_done.
  - compute_done.
  - vm_compute. lia.
  - apply find_first. reflexivity.
Defined.

(* ===================================================================== *)
(** * More on the deduplication *)
(* ===================================================================== *)

Lemma first_occurrences_sublist l : first_occurrences l `sublist_of` l.
Proof.
  induction l as [|x l IH]; simpl; [done|].
  apply sublist_skip. etrans; [apply sublist_filter|done].
Qed.

Lemma filter_all (P : str -> Prop) `{!∀ x, Decision (P x)} l :
  Forall P l -> filter P l = l.
Proof.
  induction 1 as [|x l Hx Hl IH]; [done|].
  by rewrite filter_cons_True, IH.
Qed.

Lemma first_occurrences_fixed l : NoDup l -> first_occurrences l = l.
Proof.
  induction 1 as [|x l Hx Hnd IH]; simpl; [done|]. rewrite IH. f_equal.
  apply filter_all, Forall_forall. intros y Hy ->. done.
Qed.

Lemma trimmed_nonempty_fixed l :
  Forall (fun x => PyStr.strip x = x /\ x ≠ []) l ->
  trimmed_nonempty l = l.
Proof.
  unfold trimmed_nonempty. induction 1 as [|x l [Hx Hne] Hl IH]; [done|].
  rewrite fmap_cons, filter_cons, Hx, decide_True by done. by rewrite IH.
Qed.

Lemma uniq_links_trimmed raw :
  Forall (fun x => PyStr.strip x = x /\ x ≠ []) (uniq_links_of raw).
Proof.
  apply Forall_forall. intros x.
  rewrite uniq_links_first_occurrences, first_occurrences_elem,
    trimmed_nonempty_elem.
  intros (Hne & ln & _ & <-). split; [apply strip_idem|done].
Qed.

Lemma dedup_nil l : dedup l = [] <-> l = [].
Proof.
  rewrite dedup_first_occurrences. destruct l; simpl; split; congruence.
Qed.

(** X6. Deduplicating is idempotent: the output fed back as input comes
    out unchanged; every output link is already trimmed and non-empty. *)
Theorem dedup_idempotent raw :
  uniq_links_of (uniq_links_of raw) = uniq_links_of raw /\
  Forall (fun l => PyStr.strip l = l /\ l ≠ []) (uniq_links_of raw).
Proof.
  split; [|apply uniq_links_trimmed].
  rewrite (uniq_links_first_occurrences (uniq_links_of raw)).
  rewrite trimmed_nonempty_fixed by apply uniq_links_trimmed.
  apply first_occurrences_fixed, uniq_links_NoDup.
Qed.

(** X7. Deduplicating only drops lines: the output is a subsequence of
    the trimmed input lines, in the input's order, and is never longer
    than the input. *)
Theorem dedup_keeps_input_order raw :
  uniq_links_of raw `sublist_of` (PyStr.strip <$> raw) /\
  (length (uniq_links_of raw) <= length raw)%nat.
Proof.
  assert (H : uniq_links_of raw `sublist_of` (PyStr.strip <$> raw)).
  { rewrite uniq_links_first_occurrences.
    etrans; [apply first_occurrences_sublist|]. apply sublist_filter. }
  split; [done|]. apply sublist_length in H. by rewrite length_fmap in H.
Qed.

(* ===================================================================== *)
(** * More on the crawl loop and on [crawl_file] *)
(* ===================================================================== *)

Lemma driver_calls_app a b :
  driver_calls (a ++ b) = driver_calls a ++ driver_calls b.
Proof. apply List.filter_app. Qed.

Lemma forallb_filter {A} (f g : A -> bool) l :
  forallb f l = true -> forallb f (List.filter g l) = true.
Proof.
  induction l as [|x l IH]; [done|]. cbn [forallb List.filter].
  intros [Hx Hl]%andb_true_iff. destruct (g x); cbn [forallb]; [|by apply IH].
  by rewrite Hx, IH.
Qed.

Lemma search_in_html_falsy w html kw :
  keyword_truthy kw = false -> search_in_html w html kw = None.
Proof.
  destruct kw as [k|]; [|done]. simpl. unfold search_in_html. by intros ->.
Qed.

Lemma search_in_html_truthy w html kw sn :
  search_in_html w html kw = Some sn -> PyStr.truthy sn = true.
Proof.
  intros H. apply search_in_html_some in H as (k & i & _ & _ & _ & ->). done.
Qed.

Section Matches.

Variable w : World.
Variable kw : option str.
Variable N : Z.
Variables dmin dmax : Q.

(** One pass appends the entry its link deserves, and nothing else. *)
Lemma loop_body_entries link s :
  let c := count s + 1 in
  let out := loop_body w kw N dmin dmax link s in
  entries out.2 =
    entries s ++ (if c >? N then [] else option_list (match_of w kw c link)).
Proof.
  cbv zeta. unfold match_of, page_title.
  unfold loop_body, attempt, attempt_handlers, time_sleep, try_except, print,
    emit, call, call_val, get_count, set_count, append_entry, bind, ret, raise.
  cbn [count trace entries].
  destruct (count s + 1 >? N); cbn [fst snd entries]; [by rewrite app_nil_r|].
  destruct (driver_get w (count s + 1) link) as [e|]; cbn.
  { repeat (case_match; simpl in *; simplify_eq); by rewrite app_nil_r. }
  destruct (driver_page_source w (count s + 1) link) as [e|src]; cbn.
  { repeat (case_match; simpl in *; simplify_eq); by rewrite app_nil_r. }
  destruct (keyword_truthy kw) eqn:Hkw.
  2:{ rewrite (search_in_html_falsy _ _ _ Hkw).
      repeat (case_match; simpl in *; simplify_eq); by rewrite app_nil_r. }
  destruct (search_in_html w (default [] src) kw) as [sn|] eqn:Hs.
  2:{ repeat (case_match; simpl in *; simplify_eq); by rewrite app_nil_r. }
  rewrite (search_in_html_truthy _ _ _ _ Hs).
  repeat (case_match; simpl in *; simplify_eq); try done; by rewrite app_nil_r.
Qed.

(** X8. The entries are exactly the matches: whatever way the loop ends,
    it has fetched a prefix of its links and appended, in order, one entry
    for each fetched link whose page was read and holds the keyword, with
    the title of the page (empty when the title could not be read), and no
    other entry. *)
Theorem entries_are_the_matches links s :
  let out := crawl_loop w kw N dmin dmax links s in
  exists k : nat,
    attempted (trace out.2) = attempted (trace s) ++ take k links /\
    entries out.2 = entries s ++ matches w kw (count s) (take k links).
Proof.
  revert s. induction links as [|link rest IH]; intros s; cbv zeta.
  - exists 0%nat. cbn. by rewrite !app_nil_r.
  - rewrite for_each_cons.
    pose proof (loop_body_spec w kw N dmin dmax link s) as Hb.
    pose proof (loop_body_entries link s) as He. cbv zeta in Hb, He.
    destruct (loop_body w kw N dmin dmax link s) as [r s1]. cbn [fst snd] in *.
    destruct Hb as (Hc & tl1 & Htr & _ & Hb).
    destruct (count s + 1 >? N) eqn:Hcap.
    + destruct Hb as (-> & _ & Hatt & _). exists 0%nat. cbn [fst snd take matches].
      by rewrite Htr, He, attempted_app, Hatt.
    + destruct Hb as (Hatt & _ & [[-> _]|(e & -> & _)]).
      * destruct (IH s1) as (k & Hk1 & Hk2). exists (S k).
        rewrite Hk1, Hk2, Htr, He, Hc, attempted_app, Hatt, <- !app_assoc.
        cbn [take matches]. split; [done|].
        destruct (match_of w kw (count s + 1) link); done.
      * exists 1%nat. cbn [fst snd take matches]. rewrite take_0.
        rewrite Htr, He, attempted_app, Hatt. split; [done|].
        destruct (match_of w kw (count s + 1) link); done.
Qed.

(** X9. A title that cannot be read does not lose the match: when
    [driver.title] raises an [Exception] on a page that holds the keyword,
    the entry is appended with the empty title. *)
Theorem title_failure_keeps_the_match link s src e sn :
  count s + 1 <= N ->
  driver_get w (count s + 1) link = None ->
  driver_page_source w (count s + 1) link = inr src ->
  driver_title w (count s + 1) link = inl e ->
  is_Exception e = true ->
  search_in_html w (default [] src) kw = Some sn ->
  entries (loop_body w kw N dmin dmax link s).2 =
    entries s ++ [{| url := link; title := []; snippet := sn;
                     timestamp := utcnow_isoformat w (count s + 1) ++ lit "Z" |}].
Proof.
  intros Hcap Hget Hsrc Ht He Hs. rewrite loop_body_entries.
  destruct (Z.gtb_spec (count s + 1) N) as [?|_]; [lia|].
  unfold match_of, page_title. by rewrite Hget, Hsrc, Ht, He, Hs.
Qed.

End Matches.

Lemma title_failure_keeps_the_match_witness :
  entries (loop_body notitle_world (Some (lit "world")) 50 5 12 (lit "a") (loop_start [])).2
  = [{| url := lit "a"; title := [];
        snippet := lit "...hello WORLD test page...";
        timestamp := lit "2024-01-01T00:00:01Z" |}].
Proof.
  apply (title_failure_keeps_the_match notitle_world (Some (lit "world")) 50 5 12 (lit "a")
           (loop_start []) (Some (hello_page (lit "a")))
           (WebDriverException "no title") (lit "...hello WORLD test page...")).
  - cbn. lia.
  - reflexivity.
  - reflexivity.
  - reflexivity.
  - reflexivity.
  - reflexivity.
Defined.

Section Keyword.

Variable w : World.
Variable N : Z.
Variables dmin dmax : Q.

Lemma loop_body_keyword kw1 kw2 link s1 s2 :
  count s1 = count s2 ->
  let o1 := loop_body w kw1 N dmin dmax link s1 in
  let o2 := loop_body w kw2 N dmin dmax link s2 in
  o1.1 = o2.1 /\ count o1.2 = count o2.2 /\
  exists tl1 tl2, trace o1.2 = trace s1 ++ tl1 /\ trace o2.2 = trace s2 ++ tl2 /\
    driver_calls tl1 = driver_calls tl2.
Proof.
  intros Hc. cbv zeta.
  unfold loop_body, attempt, attempt_handlers, time_sleep, try_except, print,
    emit, call, call_val, get_count, set_count, append_entry, bind, ret, raise.
  cbn [count trace entries]. rewrite Hc.
  destruct (count s2 + 1 >? N); cbn [fst snd count trace].
  { split; [done|]. split; [done|]. by eexists _, _. }
  repeat (case_match; simpl in *; simplify_eq).
  all: split; [done|]; split; [done|].
  all: repeat (rewrite <- app_assoc; simpl).
  all: eexists _, _; split; [reflexivity|]; split; [reflexivity|]; done.
Qed.

Lemma crawl_loop_keyword kw1 kw2 links s1 s2 :
  count s1 = count s2 ->
  let o1 := crawl_loop w kw1 N dmin dmax links s1 in
  let o2 := crawl_loop w kw2 N dmin dmax links s2 in
  o1.1 = o2.1 /\
  exists tl1 tl2, trace o1.2 = trace s1 ++ tl1 /\ trace o2.2 = trace s2 ++ tl2 /\
    driver_calls tl1 = driver_calls tl2.
Proof.
  revert s1 s2. induction links as [|link rest IH]; intros s1 s2 Hc; cbv zeta.
  - split; [done|]. exists [], []. by rewrite !app_nil_r.
  - rewrite !for_each_cons.
    pose proof (loop_body_keyword kw1 kw2 link s1 s2 Hc) as Hb. cbv zeta in Hb.
    destruct (loop_body w kw1 N dmin dmax link s1) as [r1 t1].
    destruct (loop_body w kw2 N dmin dmax link s2) as [r2 t2].
    cbn [fst snd] in Hb. destruct Hb as (-> & Hc' & tl1 & tl2 & Ht1 & Ht2 & Htl).
    destruct r2 as [[]|e]; cbn [fst snd].
    + destruct (IH t1 t2 Hc') as (Hr & tl1' & tl2' & Hu1 & Hu2 & Htl').
      split; [done|]. exists (tl1 ++ tl1'), (tl2 ++ tl2').
      rewrite Hu1, Hu2, Ht1, Ht2, <- !app_assoc, !driver_calls_app, Htl, Htl'.
      done.
    + split; [done|]. by exists tl1, tl2.
    + split; [done|]. by exists tl1, tl2.
Qed.

End Keyword.

(** How a run with a driver ends: by the answers of the loop, of
    [driver.quit()] and of the report's [open]. *)
Lemma crawl_file_finish w kw N dmin dmax path headless raw d s :
  read_lines w path = inr raw ->
  stripped_links raw <> [] ->
  make_firefox_driver w headless = inr d ->
  let uniq := uniq_links_of raw in
  let tr0 := trace s ++ [EvOpen path; EvPrint (MsgTotalUnique (length uniq));
                         EvStart headless] in
  let loop := crawl_loop w kw N dmin dmax uniq (loop_start tr0) in
  let fin := crawl_file w kw N dmin dmax path headless s in
  fin.1 = match driver_quit w, loop.1 with
          | Some e, _ => Exc e
          | None, Exc e => Exc e
          | None, Ok _ =>
              match open_write w (results_name (time_time w)) with
              | Some e => Exc e
              | None => Ok tt
              end
          end /\
  exists tl, trace fin.2 = trace loop.2 ++ EvQuit :: tl /\
    driver_calls tl = [] /\
    reports tl = match driver_quit w, loop.1 with
                 | None, Ok _ => [(results_name (time_time w), entries loop.2)]
                 | _, _ => []
                 end.
Proof.
  intros Hread Hlinks Hstart. cbv zeta.
  unfold crawl_file, uniq_links_of, try_finally, try_except, release,
    write_result_html, get_entries, set_entries, set_count, print, emit, bind,
    loop_start.
  cbn [trace count entries]. rewrite Hread. cbn [call_val ret].
  destruct (stripped_links raw) as [|l0 ls] eqn:Hl; [done|].
  cbn [trace count entries]. rewrite Hstart.
  cbn [call_val ret trace count entries]. rewrite <- !app_assoc. cbn [app].
  destruct (crawl_loop w kw N dmin dmax (dedup (l0 :: ls)) _) as [r s1].
  destruct (driver_quit w) as [eq|], r as [[]|e];
    cbn [call raise ret trace count entries fst snd];
    try destruct (open_write w _);
    cbn [call raise ret trace count entries fst snd].
  all: split; [done|].
  all: rewrite <- ?app_assoc; eexists; (split; [reflexivity|]); cbn; auto.
Qed.

(** X10. The keyword does not steer the crawl: two runs that differ only
    in the keyword end the same way and make the same calls to the driver
    and to [time.sleep], in the same order; the keyword only changes what
    is recorded and printed. *)
Theorem keyword_does_not_steer_the_crawl w kw1 kw2 N dmin dmax path headless :
  let out1 := run (crawl_file w kw1 N dmin dmax path headless) in
  let out2 := run (crawl_file w kw2 N dmin dmax path headless) in
  out1.1 = out2.1 /\
  driver_calls (trace out1.2) = driver_calls (trace out2.2).
Proof.
  cbv zeta. unfold run.
  destruct (read_lines w path) as [e|raw] eqn:Hread.
  { by rewrite !(crawl_file_unreadable _ _ _ _ _ _ _ e). }
  destruct (decide (stripped_links raw = [])) as [Hl|Hl].
  { by rewrite !(crawl_file_no_links _ _ _ _ _ _ _ raw). }
  destruct (make_firefox_driver w headless) as [e|d] eqn:Hstart.
  { rewrite !(crawl_file_no_driver _ _ _ _ _ _ _ raw e) by done.
    by destruct (is_WebDriverException e). }
  destruct (crawl_file_finish w kw1 N dmin dmax path headless raw d init
              Hread Hl Hstart) as (-> & tla & -> & Hca & _).
  destruct (crawl_file_finish w kw2 N dmin dmax path headless raw d init
              Hread Hl Hstart) as (-> & tlb & -> & Hcb & _).
  set (s0 := loop_start _).
  destruct (crawl_loop_keyword w N dmin dmax kw1 kw2 (uniq_links_of raw) s0 s0
              eq_refl) as (-> & tl1 & tl2 & -> & -> & Htl).
  split; [done|].
  change (EvQuit :: tla) with ([EvQuit] ++ tla).
  change (EvQuit :: tlb) with ([EvQuit] ++ tlb).
  by rewrite !driver_calls_app, Hca, Hcb, Htl.
Qed.

(** X11. The report is written only after a clean loop: in a run with a
    driver, [write_result_html] is called, once, with all the entries and
    the name [results_<time>.html], exactly when no exception left the loop
    and [driver.quit()] returned; otherwise it is not called and the
    entries found so far are not written. *)
Theorem report_only_after_a_clean_loop w kw N dmin dmax path headless raw d :
  read_lines w path = inr raw ->
  stripped_links raw <> [] ->
  make_firefox_driver w headless = inr d ->
  let loop := crawl_loop w kw N dmin dmax (uniq_links_of raw)
                (loop_start [EvOpen path;
                             EvPrint (MsgTotalUnique (length (uniq_links_of raw)));
                             EvStart headless]) in
  let out := run (crawl_file w kw N dmin dmax path headless) in
  entries out.2 = entries loop.2 /\
  reports (trace out.2) =
    match driver_quit w, loop.1 with
    | None, Ok _ => [(results_name (time_time w), entries out.2)]
    | _, _ => []
    end.
Proof.
  intros Hread Hl Hstart. cbv zeta. unfold run.
  destruct (crawl_file_acquired w kw N dmin dmax path headless raw d init
              Hread Hl Hstart) as (He & _).
  destruct (crawl_file_finish w kw N dmin dmax path headless raw d init
              Hread Hl Hstart) as (_ & tl & -> & _ & Hrep).
  cbn [init trace app] in *. split; [done|]. rewrite He.
  destruct (crawl_loop_spec w kw N dmin dmax (uniq_links_of raw)
              (loop_start [EvOpen path;
                           EvPrint (MsgTotalUnique (length (uniq_links_of raw)));
                           EvStart headless]))
    as (k & tl1 & new & _ & Htr & Hev & _).
  destruct (loop_events_quiet w tl1 Hev) as (_ & _ & _ & Hr1).
  rewrite Htr. cbn [loop_start trace].
  change (EvQuit :: tl) with ([EvQuit] ++ tl).
  rewrite !reports_app, Hr1, Hrep. cbn. done.
Qed.

Lemma report_only_after_a_clean_loop_witness :
  url <$> entries (run (crawl_file interrupt_world (Some (lit "world")) 50 5 12
                          (lit "in.txt") true)).2 = [lit "a"] /\
  reports (trace (run (crawl_file interrupt_world (Some (lit "world")) 50 5 12
                         (lit "in.txt") true)).2) = [].
Proof.
  pose proof (report_only_after_a_clean_loop interrupt_world (Some (lit "world"))
                50 5 12 (lit "in.txt") true [lit "a"; lit "b"; lit "c"] Firefox
                eq_refl ltac:(discriminate) eq_refl) as H.
  cbv zeta in H. destruct H as [_ H]. split; [vm_compute; reflexivity|].
  rewrite H. vm_compute. reflexivity.
Defined.

(** X12. The driver is used only between its start and its quit: the calls
    to the driver and to [time.sleep] of a run are none at all, or the
    start alone (when it raised), or the start, then fetches, page reads
    and sleeps, then the quit as the last call. *)
Theorem driver_used_only_between_start_and_quit w kw N dmin dmax path headless :
  let tr := trace (run (crawl_file w kw N dmin dmax path headless)).2 in
  driver_calls tr = [] \/
  driver_calls tr = [EvStart headless] \/
  exists mid, driver_calls tr = EvStart headless :: mid ++ [EvQuit] /\
              forallb loop_event mid = true.
Proof.
  cbv zeta. unfold run.
  destruct (read_lines w path) as [e|raw] eqn:Hread.
  { rewrite (crawl_file_unreadable _ _ _ _ _ _ _ e) by done. by left. }
  destruct (decide (stripped_links raw = [])) as [Hl|Hl].
  { rewrite (crawl_file_no_links _ _ _ _ _ _ _ raw) by done. by left. }
  destruct (make_firefox_driver w headless) as [e|d] eqn:Hstart.
  { rewrite (crawl_file_no_driver _ _ _ _ _ _ _ raw e) by done.
    right; left. by destruct (is_WebDriverException e). }
  destruct (crawl_file_finish w kw N dmin dmax path headless raw d init
              Hread Hl Hstart) as (_ & tl & -> & Hc & _).
  destruct (crawl_loop_spec w kw N dmin dmax (uniq_links_of raw)
              (loop_start (trace init ++
                 [EvOpen path;
                  EvPrint (MsgTotalUnique (length (uniq_links_of raw)));
                  EvStart headless])))
    as (k & tl1 & new & _ & -> & Hev & _).
  right; right. exists (driver_calls tl1). cbn [loop_start trace].
  change (EvQuit :: tl) with ([EvQuit] ++ tl).
  rewrite !driver_calls_app, Hc. cbn.
  split; [done|]. by apply forallb_filter.
Qed.

(** X13. Without a budget nothing is fetched: with [max_links_per_site] at
    most 0 a run fetches no link and keeps no entry, whatever the input. *)
Theorem nothing_fetched_without_budget w kw N dmin dmax path headless :
  N <= 0 ->
  let out := run (crawl_file w kw N dmin dmax path headless) in
  attempted (trace out.2) = [] /\ entries out.2 = [].
Proof.
  intros HN. cbv zeta. unfold run.
  destruct (read_lines w path) as [e|raw] eqn:Hread.
  { by rewrite (crawl_file_unreadable _ _ _ _ _ _ _ e). }
  destruct (decide (stripped_links raw = [])) as [Hl|Hl].
  { by rewrite (crawl_file_no_links _ _ _ _ _ _ _ raw). }
  destruct (make_firefox_driver w headless) as [e|d] eqn:Hstart.
  { rewrite (crawl_file_no_driver _ _ _ _ _ _ _ raw e) by done.
    by destruct (is_WebDriverException e). }
  destruct (crawl_file_acquired w kw N dmin dmax path headless raw d init
              Hread Hl Hstart) as (-> & _ & tl & -> & Hatt & _).
  destruct (crawl_loop_spec w kw N dmin dmax (uniq_links_of raw)
              (loop_start (trace init ++
                 [EvOpen path;
                  EvPrint (MsgTotalUnique (length (uniq_links_of raw)));
                  EvStart headless])))
    as (k & tl1 & new & _ & -> & _ & Hatt1 & Hle & -> & Hsub & _).
  cbn [loop_start trace count entries] in *.
  assert (k = 0%nat) as -> by lia. rewrite take_0 in *.
  apply sublist_nil_r, fmap_nil_inv in Hsub as ->.
  change (EvQuit :: tl) with ([EvQuit] ++ tl).
  rewrite !attempted_app, Hatt, Hatt1. done.
Qed.

Lemma nothing_fetched_without_budget_witness :
  let out := run (crawl_file abc_world (Some (lit "world")) 0 5 12 (lit "in.txt") true) in
  attempted (trace out.2) = [] /\ entries out.2 = [].
Proof.
  apply (nothing_fetched_without_budget abc_world (Some (lit "world")) 0 5 12
           (lit "in.txt") true).
  lia.
Defined.

Lemma crawl_loop_with_read w f kw N dmin dmax links s :
  crawl_loop (with_read w f) kw N dmin dmax links s
  = crawl_loop w kw N dmin dmax links s.
Proof.
  revert s. induction links as [|link rest IH]; intros s; [done|].
  rewrite !for_each_cons.
  change (loop_body (with_read w f) kw N dmin dmax link s)
    with (loop_body w kw N dmin dmax link s).
  destruct (loop_body w kw N dmin dmax link s) as [[[]|e] s1]; [apply IH|done|done].
Qed.

(** X14. Only the deduplicated links of the input matter: two input files
    with the same deduplicated links (they differ in blank lines,
    surrounding whitespace or repeated links) give the same run: the same
    calls, prints, entries and outcome. *)
Theorem same_links_same_run w kw N dmin dmax path headless raw1 raw2 :
  read_lines w path = inr raw1 ->
  uniq_links_of raw1 = uniq_links_of raw2 ->
  run (crawl_file (with_read w (fun _ => inr raw2)) kw N dmin dmax path headless)
  = run (crawl_file w kw N dmin dmax path headless).
Proof.
  intros Hread Hu.
  assert (Hd : dedup (stripped_links raw2) = dedup (stripped_links raw1)) by done.
  unfold run, crawl_file, try_finally, try_except, release, write_result_html,
    get_entries, set_entries, set_count, print, emit, bind.
  cbn [read_lines make_firefox_driver driver_quit time_time open_write with_read
       os_sleep trace count entries init].
  rewrite Hread. cbn [call_val ret].
  destruct (stripped_links raw1) as [|a l1] eqn:E1;
    destruct (stripped_links raw2) as [|b l2] eqn:E2.
  - done.
  - change (dedup []) with (@nil str) in Hd.
    apply (proj1 (dedup_nil _)) in Hd. discriminate.
  - change (dedup []) with (@nil str) in Hd. symmetry in Hd.
    apply (proj1 (dedup_nil _)) in Hd. discriminate.
  - rewrite Hd. cbn [trace count entries].
    destruct (make_firefox_driver w headless); cbn [call_val ret raise]; [done|].
    by rewrite crawl_loop_with_read.
Qed.

Lemma same_links_same_run_witness :
  run (crawl_file (with_read abc_world
                     (fun _ => inr [lit "a"; lit " b "; []; lit "a"; lit "c"; lit "b"]))
         (Some (lit "world")) 50 5 12 (lit "in.txt") true)
  = run (crawl_file abc_world (Some (lit "world")) 50 5 12 (lit "in.txt") true).
Proof.
  apply (same_links_same_run abc_world (Some (lit "world")) 50 5 12 (lit "in.txt") true
           [lit "a"; lit "b"; lit "c"]).
  - reflexivity.
  - vm_compute. reflexivity.
Defined.

(* ===================================================================== *)
(** * The report writer *)
(* ===================================================================== *)

Lemma entry_dict_lookups e :
  Writer.entry_dict e !! "url" = Some (url e) /\
  Writer.entry_dict e !! "title" = Some (title e) /\
  Writer.entry_dict e !! "snippet" = Some (snippet e) /\
  Writer.entry_dict e !! "timestamp" = Some (timestamp e).
Proof. unfold Writer.entry_dict. repeat split; by simplify_map_eq. Qed.

Lemma write_entry_crawl e :
  Writer.write_entry (Writer.entry_dict e) = (Writer.block e, None).
Proof.
  destruct (entry_dict_lookups e) as (Hu & Ht & Hs & Hw).
  unfold Writer.write_entry, Writer.block. by rewrite Hu, Ht, Hs, Hw.
Qed.

Lemma write_entries_crawl es :
  Writer.write_entries (Writer.entry_dict <$> es) = (es ≫= Writer.block, None).
Proof.
  induction es as [|e es IH]; [done|].
  rewrite fmap_cons. cbn [Writer.write_entries].
  rewrite write_entry_crawl, IH. done.
Qed.

(** X15. The entries of a crawl are written in full: for the dicts that
    [crawl_file] builds, [write_result_html] raises nothing, never falls
    back on a default, and writes the two heading lines, then the six
    lines of each entry in the order of the entries, then the closing
    line: 3 + 6n writes for n entries. *)
Theorem crawl_entries_are_written_in_full now (es : list entry) :
  Writer.write_result_html None now (Writer.entry_dict <$> es) =
    ([Writer.line86; Writer.line87 now] ++ (es ≫= Writer.block)
       ++ [Writer.line95], None) /\
  length (Writer.write_result_html None now (Writer.entry_dict <$> es)).1
  = (3 + 6 * length es)%nat.
Proof.
  assert (H : Writer.write_result_html None now (Writer.entry_dict <$> es) =
    ([Writer.line86; Writer.line87 now] ++ (es ≫= Writer.block)
       ++ [Writer.line95], None)).
  { unfold Writer.write_result_html. by rewrite write_entries_crawl. }
  split; [done|]. rewrite H. cbn [fst]. rewrite !length_app. cbn [length].
  assert (Hlen : length (es ≫= Writer.block) = (6 * length es)%nat).
  { clear H. induction es as [|e es IH]; [done|].
    rewrite bind_cons, length_app, IH. cbn [Writer.block length]. lia. }
  rewrite Hlen. lia.
Qed.

Lemma write_entries_ok es :
  Forall (fun e : gmap string str => is_Some (e !! "url")) es ->
  (Writer.write_entries es).2 = None /\
  length (Writer.write_entries es).1 = (6 * length es)%nat.
Proof.
  induction 1 as [|e es [u Hu] Hes [IH1 IH2]]; [done|].
  cbn [Writer.write_entries]. unfold Writer.write_entry. rewrite Hu.
  destruct (Writer.write_entries es) as [ws r]. cbn in *. subst.
  split; [done|]. lia.
Qed.

(** X16. Only the url is required: on an opened file [write_result_html]
    returns exactly when every entry has the key [url] (a missing title,
    snippet or timestamp is replaced by a default). At the first entry
    without a url it raises [KeyError] and leaves a truncated file: the
    heading, the lines of the entries before it and the opening line of
    its block; nothing of the later entries, and no closing line. *)
Theorem report_needs_only_the_url now (es : list (gmap string str)) :
  ((Writer.write_result_html None now es).2 = None <->
   Forall (fun e => is_Some (e !! "url")) es) /\
  (forall pre e post,
     es = pre ++ e :: post ->
     Forall (fun e => is_Some (e !! "url")) pre ->
     e !! "url" = None ->
     Writer.write_result_html None now es =
       ([Writer.line86; Writer.line87 now] ++ (Writer.write_entries pre).1
          ++ [Writer.line89], Some (Exception "KeyError"))).
Proof.
  assert (Hfail : forall pre e post,
     Forall (fun e : gmap string str => is_Some (e !! "url")) pre ->
     e !! "url" = None ->
     Writer.write_entries (pre ++ e :: post) =
       ((Writer.write_entries pre).1 ++ [Writer.line89],
        Some (Exception "KeyError"))).
  { intros pre e post Hpre He. induction Hpre as [|d pre [u Hu] Hpre IH].
    - cbn. unfold Writer.write_entry. by rewrite He.
    - rewrite <- app_comm_cons. cbn [Writer.write_entries].
      unfold Writer.write_entry. rewrite Hu, IH.
      destruct (Writer.write_entries pre) as [ws r]. done. }
  split.
  - split.
    + intros Hok. apply Forall_forall. intros e He.
      destruct (e !! "url") eqn:Hu; [by eexists|]. exfalso.
      apply list_elem_of_split in He as (pre & post & ->).
      revert Hok. clear -Hu. unfold Writer.write_result_html.
      induction pre as [|d pre IH].
      * cbn. unfold Writer.write_entry. by rewrite Hu.
      * rewrite <- app_comm_cons. cbn [Writer.write_entries].
        unfold Writer.write_entry at 1.
        destruct (d !! "url"); [|done].
        destruct (Writer.write_entries (pre ++ e :: post)) as [ws [x|]]; done.
    + intros Hall. unfold Writer.write_result_html.
      destruct (write_entries_ok es Hall) as [Hr _].
      destruct (Writer.write_entries es) as [ws r]. cbn in Hr. by subst.
  - intros pre e post -> Hpre He. unfold Writer.write_result_html.
    by rewrite Hfail.
Qed.

Lemma report_needs_only_the_url_witness :
  Writer.write_result_html None (lit "now")
    [{["url" := lit "a"]}; {["title" := lit "no url"]}; {["url" := lit "c"]}] =
  ([Writer.line86; Writer.line87 (lit "now")]
     ++ (Writer.write_entries [{["url" := lit "a"]}]).1 ++ [Writer.line89],
   Some (Exception "KeyError")).
Proof.
  apply (proj2 (report_needs_only_the_url (lit "now")
                  [{["url" := lit "a"]}; {["title" := lit "no url"]}; {["url" := lit "c"]}])
           [{["url" := lit "a"]}] {["title" := lit "no url"]} [{["url" := lit "c"]}]).
  - reflexivity.
  - constructor; [|constructor]. eexists. apply lookup_singleton_eq.
  - by apply lookup_singleton_ne.
Defined.

Lemma occurs_in_app_l x a b : occurs_in x a -> occurs_in x (a ++ b).
Proof. intros (p & q & ->). exists p, (q ++ b). by rewrite <- !app_assoc. Qed.

Lemma occurs_in_app_r x a b : occurs_in x b -> occurs_in x (a ++ b).
Proof. intros (p & q & ->). exists (a ++ p), q. by rewrite <- !app_assoc. Qed.

Lemma occurs_in_here x a b : occurs_in x (a ++ x ++ b).
Proof. by exists a, b. Qed.

Lemma block_fields e f :
  f ∈ [url e; title e; snippet e; timestamp e] ->
  occurs_in f (concat (Writer.block e)).
Proof.
  rewrite !elem_of_cons. unfold Writer.block. cbn [concat].
  intros [->|[->|[->|[->|H]]]]; [| | | |by apply elem_of_nil in H].
  - apply occurs_in_app_r, occurs_in_app_l. apply occurs_in_here.
  - do 2 apply occurs_in_app_r. apply occurs_in_app_l, occurs_in_here.
  - do 3 apply occurs_in_app_r. apply occurs_in_app_l, occurs_in_here.
  - do 4 apply occurs_in_app_r. apply occurs_in_app_l, occurs_in_here.
Qed.

(** X17. The report holds the fields as they are: the url, title, snippet
    and timestamp of every entry occur in the written file character for
    character; nothing is escaped, so markup in a title reaches the
    report as markup. *)
Theorem report_fields_are_verbatim now (es : list entry) e f :
  e ∈ es ->
  f ∈ [url e; title e; snippet e; timestamp e] ->
  occurs_in f
    (concat (Writer.write_result_html None now (Writer.entry_dict <$> es)).1).
Proof.
  intros He Hf. unfold Writer.write_result_html.
  rewrite write_entries_crawl. cbn [fst].
  apply list_elem_of_split in He as (a & b & ->).
  rewrite bind_app, bind_cons, !concat_app.
  apply occurs_in_app_r, occurs_in_app_l, occurs_in_app_r, occurs_in_app_l.
  by apply block_fields.
Qed.

Lemma report_fields_are_verbatim_witness :
  occurs_in (lit "<b>bold</b>")
    (concat (Writer.write_result_html None (lit "now")
               (Writer.entry_dict <$> [markup_entry])).1).
Proof.
  apply (report_fields_are_verbatim (lit "now") [markup_entry] markup_entry
           (lit "<b>bold</b>")).
  - constructor.
  - constructor. constructor.
Defined.

(* ===================================================================== *)
(** * The browser set-up *)
(* ===================================================================== *)

(** X18. Every browser goes through the proxy: whatever Selenium's default
    preferences, the headless flag, the host and the port, the profile
    handed to Firefox has the manual proxy type, the SOCKS host and port
    given, DNS resolution through the proxy and the untrusted-issuer
    preference off, each set over a default of the same name, and every
    other preference as Selenium's defaults have it; [--headless] is the
    only argument added, exactly when asked; no binary location is
    assigned; and Firefox is started with these options, whatever Selenium
    answers afterwards. *)
Theorem every_browser_goes_through_the_proxy sel headless host port :
  let o := Browser.make_options sel headless host port in
  Browser.profile o !! "network.proxy.type" = Some (Browser.PInt 1) /\
  Browser.profile o !! "network.proxy.socks" = Some (Browser.PStr host) /\
  Browser.profile o !! "network.proxy.socks_port" = Some (Browser.PInt port) /\
  Browser.profile o !! "network.proxy.socks_remote_dns"
    = Some (Browser.PBool true) /\
  Browser.profile o !! "webdriver_assume_untrusted_issuer"
    = Some (Browser.PBool false) /\
  (forall key,
     key ∉ ["network.proxy.type"; "network.proxy.socks";
            "network.proxy.socks_port"; "network.proxy.socks_remote_dns";
            "webdriver_assume_untrusted_issuer"] ->
     Browser.profile o !! key = Browser.default_preferences sel !! key) /\
  Browser.arguments o = (if headless then [lit "--headless"] else []) /\
  Browser.binary_location o = None /\
  head (Browser.make_firefox_driver sel headless host port).1
    = Some (Browser.CallFirefox Browser.GECKODRIVER_PATH o).
Proof.
  cbv zeta. unfold Browser.make_options, Browser.set_preference.
  cbn [Browser.profile Browser.arguments Browser.binary_location
       Browser.FIREFOX_BINARY].
  split; [by simplify_map_eq|]. split; [by simplify_map_eq|].
  split; [by simplify_map_eq|]. split; [by simplify_map_eq|].
  split; [by simplify_map_eq|].
  split.
  { intros key Hkey. rewrite !not_elem_of_cons in Hkey.
    destruct Hkey as (H1 & H2 & H3 & H4 & H5 & _).
    by rewrite !lookup_insert_ne by done. }
  split; [done|]. split; [done|].
  unfold Browser.make_firefox_driver, Browser.make_options,
    Browser.set_preference.
  destruct (Browser.firefox sel _ _) as [e|d];
    [|destruct (Browser.set_page_load_timeout sel 60)]; done.
Qed.

(** X19. A browser whose timeout cannot be set is never quit: when Firefox
    starts but [set_page_load_timeout] raises, [make_firefox_driver] raises
    after the browser was started, and a run of [crawl_file] over it
    fetches nothing and never calls [driver.quit()]. *)
Theorem browser_left_running_when_timeout_fails
    sel w kw N dmin dmax path headless d e :
  Browser.firefox sel Browser.GECKODRIVER_PATH
    (Browser.make_options sel headless Browser.TOR_SOCKS_HOST
       Browser.TOR_SOCKS_PORT)
    = inr d ->
  Browser.set_page_load_timeout sel 60 = Some e ->
  let made := Browser.make_firefox_driver sel headless
                Browser.TOR_SOCKS_HOST Browser.TOR_SOCKS_PORT in
  let out := run (crawl_file (with_start w (Browser.as_collaborator sel))
                    kw N dmin dmax path headless) in
  made.2 = inl e /\
  head made.1 = Some (Browser.CallFirefox Browser.GECKODRIVER_PATH
                        (Browser.make_options sel headless
                           Browser.TOR_SOCKS_HOST Browser.TOR_SOCKS_PORT)) /\
  quits (trace out.2) = 0%nat /\
  attempted (trace out.2) = [].
Proof.
  intros Hff Hto. cbv zeta.
  assert (Hmade : Browser.as_collaborator sel headless = inl e).
  { unfold Browser.as_collaborator, Browser.make_firefox_driver.
    by rewrite Hff, Hto. }
  split; [exact Hmade|]. split.
  { unfold Browser.make_firefox_driver. by rewrite Hff, Hto. }
  unfold run.
  destruct (read_lines (with_start w (Browser.as_collaborator sel)) path)
    as [x|raw] eqn:Hread.
  { by rewrite (crawl_file_unreadable _ _ _ _ _ _ _ x). }
  destruct (decide (stripped_links raw = [])) as [Hl|Hl].
  { by rewrite (crawl_file_no_links _ _ _ _ _ _ _ raw). }
  rewrite (crawl_file_no_driver _ _ _ _ _ _ _ raw e) by done.
  by destruct (is_WebDriverException e).
Qed.

Lemma browser_left_running_when_timeout_fails_witness :
  let made := Browser.make_firefox_driver flaky_selenium true
                Browser.TOR_SOCKS_HOST Browser.TOR_SOCKS_PORT in
  let out := run (crawl_file (with_start abc_world
                                (Browser.as_collaborator flaky_selenium))
                    (Some (lit "world")) 50 5 12 (lit "in.txt") true) in
  made.2 = inl (WebDriverException "timeout not set") /\
  head made.1 = Some (Browser.CallFirefox Browser.GECKODRIVER_PATH
                        (Browser.make_options flaky_selenium true
                           Browser.TOR_SOCKS_HOST Browser.TOR_SOCKS_PORT)) /\
  quits (trace out.2) = 0%nat /\
  attempted (trace out.2) = [].
Proof.
  apply (browser_left_running_when_timeout_fails flaky_selenium abc_world
           (Some (lit "world")) 50 5 12 (lit "in.txt") true Firefox
           (WebDriverException "timeout not set")).
  - reflexivity.
  - reflexivity.
Defined.

(** X20. The report names links of the input, each at most once: in every
    run the urls of the entries are pairwise distinct, and each is the
    trimmed, non-empty form of a line of the input file. *)
Theorem reported_links_come_from_the_input w kw N dmin dmax path headless :
  let out := run (crawl_file w kw N dmin dmax path headless) in
  NoDup (url <$> entries out.2) /\
  forall e, e ∈ entries out.2 ->
    exists raw ln, read_lines w path = inr raw /\ ln ∈ raw /\
                   PyStr.strip ln = url e /\ url e ≠ [].
Proof.
  cbv zeta. unfold run.
  destruct (read_lines w path) as [e|raw] eqn:Hread.
  { rewrite (crawl_file_unreadable _ _ _ _ _ _ _ e) by done. cbn.
    split; [constructor|]. intros x Hx. by apply elem_of_nil in Hx. }
  destruct (decide (stripped_links raw = [])) as [Hl|Hl].
  { rewrite (crawl_file_no_links _ _ _ _ _ _ _ raw) by done. cbn.
    split; [constructor|]. intros x Hx. by apply elem_of_nil in Hx. }
  destruct (make_firefox_driver w headless) as [e|d] eqn:Hstart.
  { rewrite (crawl_file_no_driver _ _ _ _ _ _ _ raw e) by done.
    destruct (is_WebDriverException e); cbn;
      (split; [constructor|]); intros x Hx; by apply elem_of_nil in Hx. }
  destruct (crawl_file_acquired w kw N dmin dmax path headless raw d init
              Hread Hl Hstart) as (-> & _).
  destruct (crawl_loop_spec w kw N dmin dmax (uniq_links_of raw)
              (loop_start (trace init ++
                 [EvOpen path;
                  EvPrint (MsgTotalUnique (length (uniq_links_of raw)));
                  EvStart headless])))
    as (k & tl1 & new & _ & _ & _ & _ & _ & -> & Hsub & _).
  cbn [loop_start entries app].
  assert (Hall : (url <$> new) `sublist_of` uniq_links_of raw).
  { etrans; [exact Hsub|]. apply sublist_take. }
  split.
  - eapply sublist_NoDup; [apply uniq_links_NoDup|exact Hall].
  - intros e He. exists raw.
    assert (Hin : url e ∈ uniq_links_of raw).
    { eapply elem_of_sublist; [|exact Hall]. by apply list_elem_of_fmap_2. }
    rewrite uniq_links_first_occurrences, first_occurrences_elem,
      trimmed_nonempty_elem in Hin.
    destruct Hin as (Hne & ln & Hln & Hs). eauto.
Qed.
